(** * Observation simulation (Tudat, ObservationModels/simulateObservations.h)

    A shallow embedding of the observation-simulation pipeline: simulation
    time settings, the single-set simulator, the aggregating simulator with
    its dispatch on the observation size, and the noise-injection layer with
    its four entry points.

    Conventions.
    - [double] is IEEE binary64, Rocq's primitive [float]; [Eigen::VectorXd]
      and [Eigen::Matrix<double, Dynamic, 1>] are lists of doubles.
    - [std::map] is an association list that the operations keep sorted by
      key; iteration from [begin()] to [end()] is iteration over the list.
    - a thrown C++ exception is the [Throws] case of [outcome]. *)

From Stdlib Require Import ZArith List Lia Bool Floats.
Import ListNotations.

(** ** Scalars, vectors and keys *)

Definition double := float.
Definition TimeType := double.
Definition Vector := list double.

(** [LinkEndType] is an enumeration; value-initialisation gives 0. *)
Definition LinkEndType := Z.

(** [ObservableType] is an enumeration and [LinkEnds] an ordered key; both
    are represented by their rank in the ordering that [std::map] uses. *)
Definition ObservableType := nat.
Definition LinkEnds := nat.

(** [rows] of a dynamic Eigen vector. *)
Definition rows (v : Vector) : Z := Z.of_nat (length v).

(** ** Exceptions *)

Inductive Exception : Type :=
| NullSimulatorError          (* runtime_error: "Observation simulator is NULL" *)
| NullModelError              (* no observation model registered for the link ends
                                 (thrown by getObservationModel) *)
| NullPointerDereference      (* evaluation through a null model pointer *)
| DynamicCastError (size : Z) (* runtime_error: "dynamic case to size N is NULL" *)
| MissingSimulatorError       (* out_of_range of observationSimulators.at( type ) *)
| UnsupportedDimensionError (size : Z) (* runtime_error: "not yet implemented for size N" *)
| DivisionByZero              (* rows( ) / 0 *)
| InconsistentSampleCountError (* runtime_error: "input data is inconsistent" *)
| MissingNoiseFunctionError   (* out_of_range of noiseFunctions.at( type ).at( linkEnds ) *)
| BadFunctionCall             (* call of an empty boost::function *)
| InconsistentNoiseSizeError  (* runtime_error: "noise size is inconsistent" *)
| EigenAssertion              (* failed size assertion of segment( ) += *)
| MissingObservableNoiseError. (* out_of_range of noiseFunctions.at( type ), or
                                  runtime_error: "missing observable" *)

Inductive outcome (A : Type) : Type :=
| Returns (a : A)
| Throws (e : Exception).

Arguments Returns {A} a.
Arguments Throws {A} e.

Definition bind {A B : Type} (x : outcome A) (k : A -> outcome B) : outcome B :=
  match x with
  | Returns a => k a
  | Throws e => Throws e
  end.

Notation "x <- c ;; k" := (bind c (fun x => k))
  (at level 61, c at next level, right associativity).

Definition returnsb {A : Type} (x : outcome A) : bool :=
  match x with Returns _ => true | Throws _ => false end.

(** ** std::map *)

Definition stdmap (V : Type) := list (nat * V).

(** [m.at( k )]; [None] stands for [std::out_of_range]. *)
Fixpoint map_at {V : Type} (m : stdmap V) (k : nat) : option V :=
  match m with
  | [] => None
  | (k', v) :: rest => if Nat.eqb k k' then Some v else map_at rest k
  end.

(** [m[ k ] = v]. *)
Fixpoint assign {V : Type} (m : stdmap V) (k : nat) (v : V) : stdmap V :=
  match m with
  | [] => [(k, v)]
  | (k', v') :: rest =>
      if Nat.eqb k k' then (k, v) :: rest
      else if Nat.ltb k k' then (k, v) :: (k', v') :: rest
      else (k', v') :: assign rest k v
  end.

(** [m[ k ]] read as an rvalue: the stored map, or a fresh empty one. *)
Definition subscript {V : Type} (m : stdmap (stdmap V)) (k : nat) : stdmap V :=
  match map_at m k with
  | Some inner => inner
  | None => []
  end.

(** [m[ k1 ][ k2 ] = v]. *)
Definition assign2 {V : Type} (m : stdmap (stdmap V)) (k1 k2 : nat) (v : V)
  : stdmap (stdmap V) :=
  assign m k1 (assign (subscript m k1) k2 v).

Definition map_at2 {V : Type} (m : stdmap (stdmap V)) (k1 k2 : nat) : option V :=
  match map_at m k1 with
  | Some inner => map_at inner k2
  | None => None
  end.

Definition keys {V : Type} (m : stdmap V) : list nat := map fst m.

(** The pairs [(k1, k2)] of a two-level map, in iteration order. *)
Definition keyPairs {V : Type} (m : stdmap (stdmap V)) : list (nat * nat) :=
  flat_map (fun e => map (fun f => (fst e, fst f)) (snd e)) m.

(** The class invariant of [std::map]: keys strictly increasing. *)
Fixpoint belowAll (k : nat) (l : list nat) : bool :=
  match l with
  | [] => true
  | k' :: rest => Nat.ltb k k' && belowAll k rest
  end.

Fixpoint increasing (l : list nat) : bool :=
  match l with
  | [] => true
  | k :: rest => belowAll k rest && increasing rest
  end.

Definition wellFormed {V : Type} (m : stdmap V) : bool := increasing (keys m).

Definition wellFormed2 {V : Type} (m : stdmap (stdmap V)) : bool :=
  wellFormed m && forallb (fun e => wellFormed (snd e)) m.

(** A [for] loop over the entries of a map, threading the loop state. *)
Fixpoint forEach {V S : Type} (m : stdmap V) (body : nat -> V -> S -> outcome S)
    (s : S) : outcome S :=
  match m with
  | [] => Returns s
  | (k, v) :: rest => s' <- body k v s ;; forEach rest body s'
  end.

(** The same loop for a body that cannot throw. *)
Fixpoint forEachPure {V S : Type} (m : stdmap V) (body : nat -> V -> S -> S)
    (s : S) : S :=
  match m with
  | [] => s
  | (k, v) :: rest => forEachPure rest body (body k v s)
  end.

(** ** Simulation time settings *)

(** The base struct carries only the reference link end; the tabulated
    struct adds the list of times.  [BaseTimeSettings] stands for an object
    whose dynamic type is the base struct or any derived struct other than
    the tabulated one. *)
Inductive ObservationSimulationTimeSettings : Type :=
| BaseTimeSettings (linkEndType_ : LinkEndType)
| TabulatedObservationSimulationTimeSettings
    (linkEndType_ : LinkEndType) (simulationTimes_ : list TimeType).

Definition linkEndType_ (s : ObservationSimulationTimeSettings) : LinkEndType :=
  match s with
  | BaseTimeSettings r => r
  | TabulatedObservationSimulationTimeSettings r _ => r
  end.

(** A [boost::shared_ptr] may be null: [None]. *)
Definition SettingsPointer := option ObservationSimulationTimeSettings.

(** ** Observation models and simulators (observationSimulator.h) *)

(** An [ObservationModel< ObservationSize >] returns a fixed-size vector for
    a time and a reference link end; the vector is given by its components,
    of which an evaluation path of width [ObservationSize] reads the first
    [ObservationSize]. *)
Definition ObservationModel := TimeType -> LinkEndType -> nat -> double.

(** An object of dynamic type [ObservationSimulator< simulatorWidth >] seen
    through [ObservationSimulatorBase]: the size it reports for a set of link
    ends, and its registry of observation models ([None]: no model is
    registered for the link ends). *)
Record ObservationSimulator : Type := {
  simulatorWidth : Z;
  getObservationSize : LinkEnds -> Z;
  observationModels_ : LinkEnds -> option ObservationModel
}.

(** Modelled from the spec: [ObservationSimulator::getObservationModel] is
    declared in observationSimulator.h.  It resolves the model of a set of
    link ends in the registry of the simulator and fails with
    [NullModelError] if no model is registered for the link ends. *)
Definition getObservationModel (simulator : ObservationSimulator)
    (linkEnds : LinkEnds) : outcome ObservationModel :=
  match observationModels_ simulator linkEnds with
  | Some model => Returns model
  | None => Throws NullModelError
  end.

(** [boost::dynamic_pointer_cast< ObservationSimulator< size, ... > >]. *)
Definition dynamic_pointer_cast (size : Z) (s : ObservationSimulator)
  : option ObservationSimulator :=
  if Z.eqb (simulatorWidth s) size then Some s else None.

(** Observations, their times and the reference link end. *)
Definition ObservationSet : Type := Vector * (list TimeType * LinkEndType).

Definition ObservationsMap : Type := stdmap (stdmap ObservationSet).

(** The value-initialised return object. *)
Definition emptyObservationSet : ObservationSet := ([], ([], 0%Z)).

(** Modelled from the spec: [simulateObservationsWithCheckAndLinkEndIdOutput]
    is declared in observationSimulator.h.  It evaluates the model at every
    time of the list, in list order, with the given reference link end,
    stacks the resulting vectors in that order and carries the times and the
    link end through.  The spec gives the routine a model to evaluate; a null
    model pointer, which only a direct caller of the overload taking a model
    can pass, is kept apart as [NullPointerDereference]. *)
Definition simulateObservationsWithCheckAndLinkEndIdOutput (ObservationSize : nat)
    (observationTimes : list TimeType) (observationModel : option ObservationModel)
    (linkEndAssociatedWithTime : LinkEndType) : outcome ObservationSet :=
  match observationModel with
  | None => Throws NullPointerDereference
  | Some model =>
      Returns
        (flat_map
           (fun t => map (model t linkEndAssociatedWithTime) (seq 0 ObservationSize))
           observationTimes,
         (observationTimes, linkEndAssociatedWithTime))
  end.

(** ** Single-set simulator *)

(** [simulateSingleObservationSet], overload taking the observation model. *)
Definition simulateSingleObservationSet (ObservationSize : nat)
    (observationsToSimulate : SettingsPointer)
    (observationModel : option ObservationModel) : outcome ObservationSet :=
  match observationsToSimulate with
  | Some (TabulatedObservationSimulationTimeSettings linkEndType simulationTimes) =>
      simulateObservationsWithCheckAndLinkEndIdOutput ObservationSize
        simulationTimes observationModel linkEndType
  | _ => Returns emptyObservationSet
  end.

(** [simulateSingleObservationSet], overload taking the observation simulator
    and the link ends. *)
Definition simulateSingleObservationSetFromSimulator (ObservationSize : nat)
    (observationsToSimulate : SettingsPointer)
    (observationSimulator : option ObservationSimulator)
    (linkEnds : LinkEnds) : outcome ObservationSet :=
  match observationSimulator with
  | None => Throws NullSimulatorError
  | Some simulator =>
      observationModel <- getObservationModel simulator linkEnds ;;
      simulateSingleObservationSet ObservationSize observationsToSimulate
        (Some observationModel)
  end.

(** ** Time settings from tables of times *)

Definition TimeTable : Type := stdmap (stdmap (list TimeType * LinkEndType)).
Definition TimeSettingsMap : Type := stdmap (stdmap SettingsPointer).

Definition createObservationSimulationTimeSettingsMap (originalMap : TimeTable)
  : TimeSettingsMap :=
  forEachPure originalMap
    (fun type inner newMap =>
       forEachPure inner
         (fun linkEnds entry newMap =>
            assign2 newMap type linkEnds
              (Some (TabulatedObservationSimulationTimeSettings (snd entry) (fst entry))))
         newMap)
    [].

(** ** Aggregating simulator *)

(** The simulators per observable.  The pointers stored in the map are taken
    to be non-null: [simulateObservations] dereferences them unchecked. *)
Definition SimulatorMap : Type := stdmap ObservationSimulator.

(** One width-specialised case of the [switch]. *)
Definition simulateWithSize (size : nat) (simulator : ObservationSimulator)
    (settings : SettingsPointer) (linkEnds : LinkEnds) : outcome ObservationSet :=
  match dynamic_pointer_cast (Z.of_nat size) simulator with
  | None => Throws (DynamicCastError (Z.of_nat size))
  | Some derivedObservationSimulator =>
      simulateSingleObservationSetFromSimulator size settings
        (Some derivedObservationSimulator) linkEnds
  end.

(** The body of the inner loop of [simulateObservations], up to the
    assignment of its result. *)
Definition simulatePair (observationSimulators : SimulatorMap)
    (type : ObservableType) (linkEnds : LinkEnds) (settings : SettingsPointer)
  : outcome ObservationSet :=
  match map_at observationSimulators type with
  | None => Throws MissingSimulatorError
  | Some simulator =>
      let observationSize := getObservationSize simulator linkEnds in
      if Z.eqb observationSize 1 then simulateWithSize 1 simulator settings linkEnds
      else if Z.eqb observationSize 2 then simulateWithSize 2 simulator settings linkEnds
      else if Z.eqb observationSize 3 then simulateWithSize 3 simulator settings linkEnds
      else Throws (UnsupportedDimensionError observationSize)
  end.

(** [simulateObservations], overload taking the time settings. *)
Definition simulateObservations (observationsToSimulate : TimeSettingsMap)
    (observationSimulators : SimulatorMap) : outcome ObservationsMap :=
  forEach observationsToSimulate
    (fun type inner observations =>
       forEach inner
         (fun linkEnds settings observations =>
            set <- simulatePair observationSimulators type linkEnds settings ;;
            Returns (assign2 observations type linkEnds set))
         observations)
    [].

(** [simulateObservations], overload taking tables of times. *)
Definition simulateObservationsFromTimes (observationsToSimulate : TimeTable)
    (observationSimulators : SimulatorMap) : outcome ObservationsMap :=
  simulateObservations
    (createObservationSimulationTimeSettingsMap observationsToSimulate)
    observationSimulators.

(** ** Noise injection *)

(** A [boost::function< double( const double ) >]: empty ([None]) or a
    function of the time.  The callable is pure: its value depends on the
    time only, not on the number of earlier calls. *)
Definition ScalarNoiseFunction : Type := option (double -> double).

Definition getIdenticallyAndIndependentlyDistributedNoise
    (noiseFunction : ScalarNoiseFunction) (observationSize : Z)
    (evaluationTime : double) : outcome Vector :=
  if (observationSize <? 0)%Z then Throws EigenAssertion
  else
    match Z.to_nat observationSize with
    | O => Returns []
    | S n =>
        match noiseFunction with
        | None => Throws BadFunctionCall
        | Some f => Returns (map (fun _ => f evaluationTime) (seq 0 (S n)))
        end
    end.

(** A [boost::function< Eigen::VectorXd( const double ) >]: empty, a pure
    function of the time supplied by the caller, or the result of
    [boost::bind( &getIdenticallyAndIndependentlyDistributedNoise, f, size, _1 )]. *)
Inductive NoiseFunction : Type :=
| EmptyNoiseFunction
| VectorNoiseFunction (g : double -> Vector)
| BoundScalarNoiseFunction (noiseFunction : ScalarNoiseFunction) (observationSize : Z).

Definition callNoiseFunction (f : NoiseFunction) (t : double) : outcome Vector :=
  match f with
  | EmptyNoiseFunction => Throws BadFunctionCall
  | VectorNoiseFunction g => Returns (g t)
  | BoundScalarNoiseFunction noiseFunction observationSize =>
      getIdenticallyAndIndependentlyDistributedNoise noiseFunction observationSize t
  end.

(** Element-wise sum of two vectors of the same size. *)
Definition addVectors (a b : Vector) : Vector :=
  map (fun p => (fst p + snd p)%float) (combine a b).

(** [v.segment( start, size )] as a value. *)
Definition segment (v : Vector) (start size : nat) : Vector :=
  firstn size (skipn start v).

(** [v.segment( start, size ) += w], with Eigen's assertions on the block
    and on the sizes of the two sides. *)
Definition segmentAdd (v : Vector) (start size : Z) (w : Vector) : outcome Vector :=
  if ((0 <=? start) && (0 <=? size) && (start + size <=? rows v)
      && (rows w =? size))%Z
  then
    Returns (firstn (Z.to_nat start) v
             ++ addVectors (segment v (Z.to_nat start) (Z.to_nat size)) w
             ++ skipn (Z.to_nat start + Z.to_nat size) v)
  else Throws EigenAssertion.

(** The loop over the samples; [remaining] holds [nominalTimes] from index
    [i] on. *)
Fixpoint addNoiseLoop (currentObservableSize : Z) (currentNoiseFunction : NoiseFunction)
    (remaining : list TimeType) (i : nat) (noisyObservations : Vector)
  : outcome Vector :=
  match remaining with
  | [] => Returns noisyObservations
  | t :: rest =>
      _ <- (if Nat.eqb i 0
            then
              first <- callNoiseFunction currentNoiseFunction t ;;
              if negb (Z.eqb (rows first) currentObservableSize)
              then Throws InconsistentNoiseSizeError
              else Returns tt
            else Returns tt) ;;
      noise <- callNoiseFunction currentNoiseFunction t ;;
      noisy <- segmentAdd noisyObservations
                 (Z.of_nat i * currentObservableSize) currentObservableSize noise ;;
      addNoiseLoop currentObservableSize currentNoiseFunction rest (S i) noisy
  end.

Section NoiseInjection.

(** The catalog of observable sizes (observableTypes.h). *)
Variable getObservableSize : ObservableType -> Z.

(** The body of the loop over the link ends of one observable, up to the
    assignment of its result. *)
Definition addNoiseToSet
    (noiseFunctions : stdmap (stdmap NoiseFunction))
    (type : ObservableType) (linkEnds : LinkEnds)
    (nominalObservationsAndTimes : ObservationSet) : outcome ObservationSet :=
  let currentObservableSize := getObservableSize type in
  let noisyObservations := fst nominalObservationsAndTimes in
  let nominalTimes := fst (snd nominalObservationsAndTimes) in
  if Z.eqb currentObservableSize 0 then Throws DivisionByZero
  else if negb (Z.eqb (Z.of_nat (length nominalTimes))
                      (Z.quot (rows noisyObservations) currentObservableSize))
  then Throws InconsistentSampleCountError
  else
    match map_at2 noiseFunctions type linkEnds with
    | None => Throws MissingNoiseFunctionError
    | Some currentNoiseFunction =>
        noisy <- addNoiseLoop currentObservableSize currentNoiseFunction
                   nominalTimes 0 noisyObservations ;;
        Returns (noisy, snd nominalObservationsAndTimes)
    end.

(** The two loops of [simulateObservationsWithNoise] over the noise-free
    observations. *)
Definition addNoise (noiseFunctions : stdmap (stdmap NoiseFunction))
    (noiseFreeObservationsList : ObservationsMap) : outcome ObservationsMap :=
  forEach noiseFreeObservationsList
    (fun type inner noisyObservationsList =>
       single <- forEach inner
                   (fun linkEnds nominal single =>
                      set <- addNoiseToSet noiseFunctions type linkEnds nominal ;;
                      Returns (assign single linkEnds set))
                   [] ;;
       Returns (assign noisyObservationsList type single))
    [].

(** [simulateObservationsWithNoise]: one vector noise function per
    observable and link ends. *)
Definition simulateObservationsWithNoise (observationsToSimulate : TimeSettingsMap)
    (observationSimulators : SimulatorMap)
    (noiseFunctions : stdmap (stdmap NoiseFunction)) : outcome ObservationsMap :=
  noiseFreeObservationsList <-
    simulateObservations observationsToSimulate observationSimulators ;;
  addNoise noiseFunctions noiseFreeObservationsList.

(** The scalar function bound to the size of the observable. *)
Definition boundNoise (type : ObservableType) (f : ScalarNoiseFunction)
  : NoiseFunction :=
  BoundScalarNoiseFunction f (getObservableSize type).

(** Overload: one scalar noise function per observable and link ends. *)
Definition simulateObservationsWithNoiseScalarPerLinkEnds
    (observationsToSimulate : TimeSettingsMap)
    (observationSimulators : SimulatorMap)
    (noiseFunctions : stdmap (stdmap ScalarNoiseFunction))
  : outcome ObservationsMap :=
  let noiseVectorFunctions :=
    forEachPure noiseFunctions
      (fun type inner noiseVectorFunctions =>
         forEachPure inner
           (fun linkEnds f noiseVectorFunctions =>
              assign2 noiseVectorFunctions type linkEnds (boundNoise type f))
           noiseVectorFunctions)
      [] in
  simulateObservationsWithNoise observationsToSimulate observationSimulators
    noiseVectorFunctions.

(** Overload: one vector noise function per observable. *)
Definition simulateObservationsWithNoisePerObservable
    (observationsToSimulate : TimeSettingsMap)
    (observationSimulators : SimulatorMap)
    (noiseFunctions : stdmap NoiseFunction) : outcome ObservationsMap :=
  fullNoiseFunctions <-
    forEach observationsToSimulate
      (fun type inner fullNoiseFunctions =>
         match map_at noiseFunctions type with
         | None => Throws MissingObservableNoiseError
         | Some EmptyNoiseFunction => Throws MissingObservableNoiseError
         | Some f =>
             Returns
               (forEachPure inner
                  (fun linkEnds _ fullNoiseFunctions =>
                     assign2 fullNoiseFunctions type linkEnds f)
                  fullNoiseFunctions)
         end)
      [] ;;
  simulateObservationsWithNoise observationsToSimulate observationSimulators
    fullNoiseFunctions.

(** Overload: one scalar noise function per observable. *)
Definition simulateObservationsWithNoiseScalarPerObservable
    (observationsToSimulate : TimeSettingsMap)
    (observationSimulators : SimulatorMap)
    (noiseFunctions : stdmap ScalarNoiseFunction) : outcome ObservationsMap :=
  let noiseVectorFunctions :=
    forEachPure noiseFunctions
      (fun type f noiseVectorFunctions =>
         assign noiseVectorFunctions type (boundNoise type f))
      [] in
  simulateObservationsWithNoisePerObservable observationsToSimulate
    observationSimulators noiseVectorFunctions.

(** Overload: a single scalar noise function. *)
Definition simulateObservationsWithNoiseScalar
    (observationsToSimulate : TimeSettingsMap)
    (observationSimulators : SimulatorMap)
    (noiseFunction : ScalarNoiseFunction) : outcome ObservationsMap :=
  let noiseFunctionList :=
    forEachPure observationsToSimulate
      (fun type _ noiseFunctionList => assign noiseFunctionList type noiseFunction)
      [] in
  simulateObservationsWithNoiseScalarPerObservable observationsToSimulate
    observationSimulators noiseFunctionList.

End NoiseInjection.

(** ** Loops as traversals *)

(** The results of a body that does not read the loop state, entry by
    entry, up to the first exception. *)
Fixpoint traverse {V W : Type} (g : nat -> V -> outcome W) (m : stdmap V)
  : outcome (stdmap W) :=
  match m with
  | [] => Returns []
  | (k, v) :: rest =>
      x <- g k v ;; xs <- traverse g rest ;; Returns ((k, x) :: xs)
  end.

Definition traverse2 {V W : Type} (g : nat -> nat -> V -> outcome W)
    (m : stdmap (stdmap V)) : outcome (stdmap (stdmap W)) :=
  traverse (fun k1 inner => traverse (g k1) inner) m.

(** Entries with an empty inner map leave no trace in a map that is filled
    by [m[ k1 ][ k2 ] = v]. *)
Definition dropEmpty {V : Type} (m : stdmap (stdmap V)) : stdmap (stdmap V) :=
  filter (fun e => match snd e with [] => false | _ => true end) m.

(** [m[ k1 ][ k2 ] = v] for every entry of a two-level map. *)
Definition fill2 {V : Type} (xss : stdmap (stdmap V)) (acc : stdmap (stdmap V))
  : stdmap (stdmap V) :=
  forEachPure xss
    (fun k1 xs acc => forEachPure xs (fun k2 x acc => assign2 acc k1 k2 x) acc)
    acc.

Definition mapValues {V W : Type} (g : nat -> V -> W) (m : stdmap V) : stdmap W :=
  map (fun e => (fst e, g (fst e) (snd e))) m.

(** Whether the dynamic type of a settings object is the tabulated one
    (the [dynamic_pointer_cast] of a null pointer is null). *)
Definition isTabulated (settings : SettingsPointer) : bool :=
  match settings with
  | Some (TabulatedObservationSimulationTimeSettings _ _) => true
  | _ => false
  end.

(** The conversion in the words of its description: every entry
    [(times, linkEndType)] of the table becomes a tabulated settings object
    under the same keys. *)
Definition tabulatedSettings (table : TimeTable) : TimeSettingsMap :=
  mapValues
    (fun _ inner =>
       mapValues
         (fun _ entry =>
            Some (TabulatedObservationSimulationTimeSettings (snd entry) (fst entry)))
         inner)
    table.

(** The effect of the loop over the samples in closed form: the vectors
    [ws] added, one after the other, to the consecutive blocks of [size]
    values of [v]. *)
Fixpoint addBlocks (size : nat) (v : Vector) (ws : list Vector) : Vector :=
  match ws with
  | [] => v
  | w :: rest =>
      addVectors (firstn size v) w ++ addBlocks size (skipn size v) rest
  end.

(** Element-wise difference of two vectors of the same size. *)
Definition subVectors (a b : Vector) : Vector :=
  map (fun p => (fst p - snd p)%float) (combine a b).

(** ** Zero noise *)

(** The scalar noise function that is zero at every time. *)
Definition zeroScalar : ScalarNoiseFunction := Some (fun _ => 0%float).

(** A noise function that returns, at every time, the zero vector of the
    given size. *)
Definition isZeroNoise (f : NoiseFunction) (size : Z) : Prop :=
  forall t, callNoiseFunction f t = Returns (repeat 0%float (Z.to_nat size)).

(** Every value of every set with zero added to it. *)
Definition plusZero (observations : ObservationsMap) : ObservationsMap :=
  mapValues
    (fun _ inner =>
       mapValues
         (fun _ set => (map (fun x => (x + 0)%float) (fst set), snd set))
         inner)
    observations.

(** Whether some set holds the double negative zero. *)
Definition holdsNegativeZero (observations : ObservationsMap) : Prop :=
  exists type inner linkEnds set,
    In (type, inner) observations /\ In (linkEnds, set) inner /\
    In (-0)%float (fst set).

(** Whether, for every pair of the time settings, the simulator of the
    observable reports the size that the catalog gives the observable. *)
Definition agreesWithCatalog (getObservableSize : ObservableType -> Z)
    (ts : TimeSettingsMap) (sims : SimulatorMap) : bool :=
  forallb
    (fun e =>
       match map_at sims (fst e) with
       | Some simulator =>
           forallb
             (fun f =>
                Z.eqb (getObservationSize simulator (fst f)) (getObservableSize (fst e)))
             (snd e)
       | None => true
       end)
    ts.

(** Every pair of the time settings has a noise function that is zero, of
    the size of the observable (when that size is positive). *)
Definition zeroNoiseFor (getObservableSize : ObservableType -> Z)
    (ts : TimeSettingsMap) (nf : stdmap (stdmap NoiseFunction)) : Prop :=
  forall type inner linkEnds settings,
    In (type, inner) ts -> In (linkEnds, settings) inner ->
    exists f,
      map_at2 nf type linkEnds = Some f /\
      ((0 < getObservableSize type)%Z -> isZeroNoise f (getObservableSize type)).

(** ** Kinds of exceptions *)

(** The exceptions of the aggregating simulator. *)
Definition aggregateException (e : Exception) : bool :=
  match e with
  | MissingSimulatorError | DynamicCastError _ | UnsupportedDimensionError _
  | NullModelError => true
  | _ => false
  end.

(** The exceptions of the addition of noise to the noise-free observations. *)
Definition noiseException (e : Exception) : bool :=
  match e with
  | DivisionByZero | InconsistentSampleCountError | MissingNoiseFunctionError
  | InconsistentNoiseSizeError | BadFunctionCall | EigenAssertion => true
  | _ => false
  end.

(** ** Sample inputs *)

(** A simulator of width 1 whose registry holds no model. *)
Definition unregisteredSimulator : ObservationSimulator :=
  {| simulatorWidth := 1;
     getObservationSize := fun _ => 1%Z;
     observationModels_ := fun _ => None |}.

(** A simulator of the given width that reports that width and whose model
    returns, in component [i], the time plus [i]. *)
Definition rampSimulator (width : nat) : ObservationSimulator :=
  {| simulatorWidth := Z.of_nat width;
     getObservationSize := fun _ => Z.of_nat width;
     observationModels_ :=
       fun _ => Some (fun t _ i => (t + of_uint63 (Uint63.of_nat i))%float) |}.

(** A simulator that reports the given size for every set of link ends. *)
Definition reportingSimulator (size : Z) : ObservationSimulator :=
  {| simulatorWidth := size;
     getObservationSize := fun _ => size;
     observationModels_ := fun _ => Some (fun t _ _ => t) |}.

(** Tabulated settings with reference link end 1. *)
Definition tabulated (times : list TimeType) : SettingsPointer :=
  Some (TabulatedObservationSimulationTimeSettings 1%Z times).

(** A simulator of width 2 that reports the size 1. *)
Definition mismatchedSimulator : ObservationSimulator :=
  {| simulatorWidth := 2;
     getObservationSize := fun _ => 1%Z;
     observationModels_ := fun _ => Some (fun t _ _ => t) |}.

(** One simulator of each supported width, under the observables 1, 2, 3. *)
Definition widthSimulators : SimulatorMap :=
  [(1, rampSimulator 1); (2, rampSimulator 2); (3, rampSimulator 3)].

(** One sample at time 10 for link ends 0 of each of these observables. *)
Definition widthSettings : TimeSettingsMap :=
  [(1, [(0, tabulated [10%float])]); (2, [(0, tabulated [10%float])]);
   (3, [(0, tabulated [10%float])])].

(** A simulator of width 1 whose model returns twice the time. *)
Definition doublingSimulator : ObservationSimulator :=
  {| simulatorWidth := 1;
     getObservationSize := fun _ => 1%Z;
     observationModels_ := fun _ => Some (fun t _ _ => (t * 2)%float) |}.

(** A noise function that returns the same vector at every time. *)
Definition constantNoise (w : Vector) : NoiseFunction :=
  VectorNoiseFunction (fun _ => w).

(** One tenth, as the nearest double. *)
Definition oneTenth : double := 0x1.999999999999ap-4%float.

(** The scenario of three samples: times 0, 1 and 2 for observable 0 and
    link ends 0, simulated by the doubling model, with constant noise. *)
Definition scenarioSettings : TimeSettingsMap :=
  [(0, [(0, tabulated [0; 1; 2]%float)])].

Definition scenarioSimulators : SimulatorMap := [(0, doublingSimulator)].

Definition scenarioNoise : stdmap (stdmap NoiseFunction) :=
  [(0, [(0, constantNoise [oneTenth])])].

Definition scenarioCatalog : ObservableType -> Z := fun _ => 1%Z.

(** A simulator of width 1 whose model returns negative zero. *)
Definition negativeZeroSimulator : ObservationSimulator :=
  {| simulatorWidth := 1;
     getObservationSize := fun _ => 1%Z;
     observationModels_ := fun _ => Some (fun _ _ _ => (-0)%float) |}.

(** * Properties *)

(** ** Maps *)

Lemma map_at_assign_same {V : Type} (m : stdmap V) (k : nat) (v : V) :
  map_at (assign m k v) k = Some v.
Proof.
  induction m as [|[k' v'] rest IH]; simpl.
  - now rewrite Nat.eqb_refl.
  - destruct (Nat.eqb k k') eqn:E; simpl.
    + now rewrite Nat.eqb_refl.
    + destruct (Nat.ltb k k'); simpl.
      * now rewrite Nat.eqb_refl.
      * now rewrite E.
Qed.

Lemma map_at_assign_other {V : Type} (m : stdmap V) (k k' : nat) (v : V) :
  k' <> k -> map_at (assign m k v) k' = map_at m k'.
Proof.
  intro Hne. apply Nat.eqb_neq in Hne.
  induction m as [|[k0 v0] rest IH]; simpl.
  - now rewrite Hne.
  - destruct (Nat.eqb k k0) eqn:E; simpl.
    + apply Nat.eqb_eq in E. subst k0. now rewrite Hne.
    + destruct (Nat.ltb k k0); simpl.
      * now rewrite Hne.
      * destruct (Nat.eqb k' k0); [reflexivity | exact IH].
Qed.

Lemma belowAll_spec (k : nat) (l : list nat) :
  belowAll k l = true <-> (forall k', In k' l -> k < k').
Proof.
  induction l as [|a l IH]; simpl.
  - split; [intros _ k' [] | reflexivity].
  - rewrite andb_true_iff, Nat.ltb_lt, IH. split.
    + intros [Ha Hl] k' [<-|Hin]; auto.
    + intros H. split; [apply H; now left | intros k' Hin; apply H; now right].
Qed.

Lemma increasing_app (l1 l2 : list nat) :
  increasing (l1 ++ l2) = true <->
  increasing l1 = true /\ increasing l2 = true /\
  (forall a b, In a l1 -> In b l2 -> a < b).
Proof.
  induction l1 as [|x l1 IH]; simpl.
  - split; [intros H; repeat split; auto; intros a b [] | intros (_ & H & _); exact H].
  - rewrite !andb_true_iff, IH, !belowAll_spec. split.
    + intros (Hx & H1 & H2 & H12).
      split; [split; [|exact H1] | split; [exact H2|]].
      * intros k' Hin. apply Hx, in_or_app. now left.
      * intros a b [<-|Ha] Hb; [apply Hx, in_or_app; now right | now apply H12].
    + intros ((Hx & H1) & H2 & H12).
      split; [|split; [exact H1 | split; [exact H2|]]].
      * intros k' Hin. apply in_app_or in Hin as [Hin|Hin]; [now apply Hx|].
        apply H12; [now left | exact Hin].
      * intros a b Ha Hb. apply H12; [now right | exact Hb].
Qed.

Lemma map_at_None {V : Type} (m : stdmap V) (k : nat) :
  map_at m k = None <-> ~ In k (keys m).
Proof.
  induction m as [|[k' v] rest IH]; simpl.
  - tauto.
  - destruct (Nat.eqb k k') eqn:E.
    + apply Nat.eqb_eq in E. subst. split; [discriminate | intros H; exfalso; apply H; now left].
    + apply Nat.eqb_neq in E. rewrite IH. split.
      * intros H [Heq|Hin]; [congruence | contradiction].
      * intros H Hin. apply H. now right.
Qed.

(** Assigning a key above all the keys of the map appends the entry. *)
Lemma assign_above {V : Type} (m : stdmap V) (k : nat) (v : V) :
  (forall k', In k' (keys m) -> k' < k) -> assign m k v = m ++ [(k, v)].
Proof.
  induction m as [|[k' v'] rest IH]; simpl; intro H.
  - reflexivity.
  - assert (Hlt : k' < k) by (apply H; now left).
    destruct (Nat.eqb k k') eqn:E; [apply Nat.eqb_eq in E; lia|].
    destruct (Nat.ltb k k') eqn:L; [apply Nat.ltb_lt in L; lia|].
    rewrite IH; [reflexivity | intros k0 Hin; apply H; now right].
Qed.

(** Assigning the last key of the map replaces the last entry. *)
Lemma assign_last {V : Type} (m : stdmap V) (k : nat) (v v' : V) :
  (forall k', In k' (keys m) -> k' < k) ->
  assign (m ++ [(k, v)]) k v' = m ++ [(k, v')].
Proof.
  induction m as [|[k0 v0] rest IH]; simpl; intro H.
  - now rewrite Nat.eqb_refl.
  - assert (Hlt : k0 < k) by (apply H; now left).
    destruct (Nat.eqb k k0) eqn:E; [apply Nat.eqb_eq in E; lia|].
    destruct (Nat.ltb k k0) eqn:L; [apply Nat.ltb_lt in L; lia|].
    rewrite IH; [reflexivity | intros k1 Hin; apply H; now right].
Qed.

Lemma map_at_last {V : Type} (m : stdmap V) (k : nat) (v : V) :
  (forall k', In k' (keys m) -> k' < k) -> map_at (m ++ [(k, v)]) k = Some v.
Proof.
  induction m as [|[k0 v0] rest IH]; simpl; intro H.
  - now rewrite Nat.eqb_refl.
  - assert (Hlt : k0 < k) by (apply H; now left).
    destruct (Nat.eqb k k0) eqn:E; [apply Nat.eqb_eq in E; lia|].
    apply IH. intros k1 Hin. apply H. now right.
Qed.

Lemma keys_app {V : Type} (a b : stdmap V) : keys (a ++ b) = keys a ++ keys b.
Proof. unfold keys. apply map_app. Qed.

(** A map filled in increasing key order is the list of its entries. *)
Lemma fill_flat {V : Type} (ys acc : stdmap V) :
  increasing (keys acc ++ keys ys) = true ->
  forEachPure ys (fun k y acc => assign acc k y) acc = acc ++ ys.
Proof.
  revert acc. induction ys as [|[k y] rest IH]; intros acc H; simpl.
  - now rewrite app_nil_r.
  - rewrite assign_above.
    + rewrite IH.
      * now rewrite <- app_assoc.
      * rewrite keys_app. simpl. now rewrite <- app_assoc.
    + apply increasing_app in H as (_ & _ & H). intros k' Hin.
      apply H; [exact Hin | now left].
Qed.

Lemma fill_inner {V : Type} (xs : stdmap V) (acc : stdmap (stdmap V))
    (k1 : nat) (p : stdmap V) :
  (forall k', In k' (keys acc) -> k' < k1) ->
  increasing (keys p ++ keys xs) = true ->
  forEachPure xs (fun k2 x acc => assign2 acc k1 k2 x) (acc ++ [(k1, p)])
  = acc ++ [(k1, p ++ xs)].
Proof.
  intro Hacc. revert p. induction xs as [|[k2 x] rest IH]; intros p H; simpl.
  - now rewrite app_nil_r.
  - unfold assign2 at 2. unfold subscript. rewrite (map_at_last _ _ _ Hacc).
    rewrite (assign_above p).
    + rewrite (assign_last _ _ _ _ Hacc). rewrite IH.
      * now rewrite <- app_assoc.
      * rewrite keys_app. simpl. now rewrite <- app_assoc.
    + apply increasing_app in H as (_ & _ & H). intros k' Hin.
      apply H; [exact Hin | now left].
Qed.

Lemma fill_inner_fresh {V : Type} (xs : stdmap V) (acc : stdmap (stdmap V))
    (k1 : nat) :
  (forall k', In k' (keys acc) -> k' < k1) ->
  wellFormed xs = true ->
  forEachPure xs (fun k2 x acc => assign2 acc k1 k2 x) acc
  = match xs with [] => acc | _ => acc ++ [(k1, xs)] end.
Proof.
  intros Hacc Hwf. destruct xs as [|[k2 x] rest]; simpl; [reflexivity|].
  assert (Hnone : map_at acc k1 = None).
  { apply map_at_None. intro Hin. apply Hacc in Hin. lia. }
  unfold assign2 at 2. unfold subscript. rewrite Hnone. simpl.
  rewrite (assign_above acc _ _ Hacc).
  apply (fill_inner rest acc k1 [(k2, x)] Hacc). exact Hwf.
Qed.

(** A two-level map filled in increasing key order is the list of its
    entries, without the entries whose inner map is empty. *)
Lemma fill2_spec {V : Type} (xss acc : stdmap (stdmap V)) :
  increasing (keys acc ++ keys xss) = true ->
  forallb (fun e => wellFormed (snd e)) xss = true ->
  fill2 xss acc = acc ++ dropEmpty xss.
Proof.
  unfold fill2. revert acc.
  induction xss as [|[k1 xs] rest IH]; intros acc H Hin; simpl.
  - now rewrite app_nil_r.
  - simpl in Hin. apply andb_true_iff in Hin as [Hxs Hrest].
    assert (Hacc : forall k', In k' (keys acc) -> k' < k1).
    { apply increasing_app in H as (_ & _ & H). intros k' Hk.
      apply H; [exact Hk | now left]. }
    rewrite (fill_inner_fresh xs acc k1 Hacc Hxs).
    destruct xs as [|e xs'].
    + apply IH; [|exact Hrest].
      apply increasing_app in H as (H1 & H2 & H12). apply increasing_app.
      simpl in H2. apply andb_true_iff in H2 as [_ H2].
      split; [exact H1 | split; [exact H2|]].
      intros a b Ha Hb. apply H12; [exact Ha | now right].
    + rewrite IH; [now rewrite <- app_assoc | | exact Hrest].
      rewrite keys_app. simpl. now rewrite <- app_assoc.
Qed.

(** ** Loops *)

Lemma forEach_ext {V S : Type} (m : stdmap V)
    (body body' : nat -> V -> S -> outcome S) (s : S) :
  (forall k v s, body k v s = body' k v s) ->
  forEach m body s = forEach m body' s.
Proof.
  intro H. revert s. induction m as [|[k v] rest IH]; intro s; simpl.
  - reflexivity.
  - rewrite H. destruct (body' k v s); simpl; [apply IH | reflexivity].
Qed.

(** A loop whose body computes a value from the entry alone and then stores
    it is a traversal followed by the stores. *)
Lemma forEach_split {V W S : Type} (g : nat -> V -> outcome W)
    (h : nat -> W -> S -> S) (m : stdmap V) (s : S) :
  forEach m (fun k v s => x <- g k v ;; Returns (h k x s)) s
  = (xs <- traverse g m ;; Returns (forEachPure xs h s)).
Proof.
  revert s. induction m as [|[k v] rest IH]; intro s; simpl.
  - reflexivity.
  - destruct (g k v) as [x|e]; simpl; [|reflexivity].
    rewrite IH. destruct (traverse g rest); reflexivity.
Qed.

Lemma forEachPure_mapValues {V W S : Type} (g : nat -> V -> W)
    (h : nat -> W -> S -> S) (m : stdmap V) (s : S) :
  forEachPure m (fun k v s => h k (g k v) s) s = forEachPure (mapValues g m) h s.
Proof.
  revert s. induction m as [|[k v] rest IH]; intro s; simpl; [reflexivity | apply IH].
Qed.

Lemma forEachPure_ext {V S : Type} (m : stdmap V)
    (body body' : nat -> V -> S -> S) (s : S) :
  (forall k v s, body k v s = body' k v s) ->
  forEachPure m body s = forEachPure m body' s.
Proof.
  intro H. revert s. induction m as [|[k v] rest IH]; intro s; simpl.
  - reflexivity.
  - rewrite H. apply IH.
Qed.

(** ** Traversals *)

Lemma traverse_keys {V W : Type} (g : nat -> V -> outcome W) (m : stdmap V)
    (xs : stdmap W) :
  traverse g m = Returns xs -> keys xs = keys m.
Proof.
  revert xs. induction m as [|[k v] rest IH]; intros xs H; simpl in H.
  - injection H as <-. reflexivity.
  - destruct (g k v) as [x|e]; simpl in H; [|discriminate].
    destruct (traverse g rest) as [xs'|e]; simpl in H; [|discriminate].
    injection H as <-. simpl. f_equal. now apply IH.
Qed.

Lemma traverse_at {V W : Type} (g : nat -> V -> outcome W) (m : stdmap V)
    (xs : stdmap W) (k : nat) :
  traverse g m = Returns xs ->
  match map_at m k with
  | Some v => exists x, g k v = Returns x /\ map_at xs k = Some x
  | None => map_at xs k = None
  end.
Proof.
  revert xs. induction m as [|[k' v] rest IH]; intros xs H; simpl in H.
  - injection H as <-. reflexivity.
  - destruct (g k' v) as [x|e] eqn:G; simpl in H; [|discriminate].
    destruct (traverse g rest) as [xs'|e]; simpl in H; [|discriminate].
    injection H as <-. simpl. destruct (Nat.eqb k k') eqn:E.
    + apply Nat.eqb_eq in E. subst k'. now exists x.
    + now apply IH.
Qed.

Lemma traverse_app {V W : Type} (g : nat -> V -> outcome W) (m1 m2 : stdmap V) :
  traverse g (m1 ++ m2)
  = (xs <- traverse g m1 ;; ys <- traverse g m2 ;; Returns (xs ++ ys)).
Proof.
  induction m1 as [|[k v] rest IH]; simpl.
  - destruct (traverse g m2); reflexivity.
  - destruct (g k v); simpl; [|reflexivity]. rewrite IH.
    destruct (traverse g rest); simpl; [|reflexivity].
    destruct (traverse g m2); reflexivity.
Qed.

(** The result of a traversal has the keys of the map, and each value is
    what the body returns on the entry. *)
Lemma traverse_Forall2 {V W : Type} (g : nat -> V -> outcome W) (m : stdmap V)
    (xs : stdmap W) :
  traverse g m = Returns xs <->
  Forall2 (fun e x => fst x = fst e /\ g (fst e) (snd e) = Returns (snd x)) m xs.
Proof.
  revert xs. induction m as [|[k v] rest IH]; intros xs; simpl.
  - split.
    + intro H. injection H as <-. constructor.
    + intro H. inversion H. reflexivity.
  - split.
    + intro H. destruct (g k v) as [x|e] eqn:G; simpl in H; [|discriminate].
      destruct (traverse g rest) as [xs'|e] eqn:T; simpl in H; [|discriminate].
      injection H as <-. constructor; [simpl; auto | now apply IH].
    + intro H. inversion H as [|e [k' x] l l' [Hk Hg] Hrest]; subst.
      simpl in Hk, Hg. subst k'. rewrite Hg. simpl.
      apply IH in Hrest. rewrite Hrest. reflexivity.
Qed.

Lemma traverse_wellFormed {V W : Type} (g : nat -> V -> outcome W) (m : stdmap V)
    (xs : stdmap W) :
  traverse g m = Returns xs -> wellFormed xs = wellFormed m.
Proof.
  intro H. unfold wellFormed. now rewrite (traverse_keys g m xs H).
Qed.

Lemma traverse2_inner_wellFormed {V W : Type} (g : nat -> nat -> V -> outcome W)
    (m : stdmap (stdmap V)) (xss : stdmap (stdmap W)) :
  traverse2 g m = Returns xss ->
  forallb (fun e => wellFormed (snd e)) xss
  = forallb (fun e => wellFormed (snd e)) m.
Proof.
  unfold traverse2. intro H. apply traverse_Forall2 in H.
  induction H as [|[k inner] [k' xs] m xss [_ Hg] _ IH]; simpl.
  - reflexivity.
  - simpl in Hg. rewrite IH. f_equal. now apply (traverse_wellFormed (g k)).
Qed.

Lemma traverse2_wellFormed2 {V W : Type} (g : nat -> nat -> V -> outcome W)
    (m : stdmap (stdmap V)) (xss : stdmap (stdmap W)) :
  traverse2 g m = Returns xss -> wellFormed2 xss = wellFormed2 m.
Proof.
  intro H. unfold wellFormed2.
  rewrite (traverse2_inner_wellFormed g m xss H).
  f_equal. now apply (traverse_wellFormed (fun k1 inner => traverse (g k1) inner)).
Qed.

Lemma traverse2_keyPairs {V W : Type} (g : nat -> nat -> V -> outcome W)
    (m : stdmap (stdmap V)) (xss : stdmap (stdmap W)) :
  traverse2 g m = Returns xss -> keyPairs xss = keyPairs m.
Proof.
  unfold traverse2. intro H. apply traverse_Forall2 in H.
  induction H as [|[k inner] [k' xs] m xss [Hk Hg] _ IH]; simpl.
  - reflexivity.
  - simpl in Hk, Hg. subst k'. rewrite IH. f_equal.
    apply traverse_keys in Hg. unfold keys in Hg.
    rewrite <- (map_map fst (fun k2 => (k, k2)) xs).
    rewrite <- (map_map fst (fun k2 => (k, k2)) inner).
    now rewrite Hg.
Qed.

Lemma traverse2_at2 {V W : Type} (g : nat -> nat -> V -> outcome W)
    (m : stdmap (stdmap V)) (xss : stdmap (stdmap W)) (k1 k2 : nat) :
  traverse2 g m = Returns xss ->
  match map_at2 m k1 k2 with
  | Some v => exists x, g k1 k2 v = Returns x /\ map_at2 xss k1 k2 = Some x
  | None => map_at2 xss k1 k2 = None
  end.
Proof.
  unfold traverse2, map_at2. intro H.
  pose proof (traverse_at _ m xss k1 H) as H1.
  destruct (map_at m k1) as [inner|].
  - destruct H1 as (xs & Hxs & ->).
    exact (traverse_at (g k1) inner xs k2 Hxs).
  - now rewrite H1.
Qed.

(** ** Maps without empty inner maps *)

Lemma keyPairs_dropEmpty {V : Type} (m : stdmap (stdmap V)) :
  keyPairs (dropEmpty m) = keyPairs m.
Proof.
  induction m as [|[k [|e inner]] rest IH]; simpl.
  - reflexivity.
  - exact IH.
  - now rewrite IH.
Qed.

Lemma dropEmpty_wellFormed2 {V : Type} (m : stdmap (stdmap V)) :
  wellFormed2 m = true -> wellFormed2 (dropEmpty m) = true.
Proof.
  unfold wellFormed2, wellFormed. intro H.
  apply andb_true_iff in H as [Hk Hin]. apply andb_true_iff. split.
  - clear Hin. induction m as [|[k inner] rest IH]; [reflexivity|].
    simpl in Hk. apply andb_true_iff in Hk as [Hb Hr].
    assert (Hsub : forall k', In k' (keys (dropEmpty rest)) -> In k' (keys rest)).
    { intros k' Hk'. unfold keys, dropEmpty in *. apply in_map_iff in Hk'.
      destruct Hk' as (e & <- & He). apply filter_In in He as [He _].
      now apply in_map. }
    simpl. destruct inner; simpl.
    + now apply IH.
    + apply andb_true_iff. split; [|now apply IH].
      apply belowAll_spec. intros k' Hk'. apply Hsub in Hk'.
      revert k' Hk'. now apply belowAll_spec.
  - clear Hk. induction m as [|[k inner] rest IH]; [reflexivity|].
    simpl in Hin. apply andb_true_iff in Hin as [Hi Hr].
    simpl. destruct inner; simpl.
    + now apply IH.
    + apply andb_true_iff. split; [exact Hi | now apply IH].
Qed.

(** ** The aggregating simulator as a traversal *)

Lemma simulateObservations_traverse (ts : TimeSettingsMap) (sims : SimulatorMap) :
  simulateObservations ts sims
  = (xss <- traverse2 (simulatePair sims) ts ;; Returns (fill2 xss [])).
Proof.
  unfold simulateObservations, traverse2, fill2.
  rewrite <- (forEach_split
                (fun type inner => traverse (simulatePair sims type) inner)
                (fun k1 xs acc =>
                   forEachPure xs (fun k2 x acc => assign2 acc k1 k2 x) acc)).
  apply forEach_ext. intros type inner obs.
  apply (forEach_split (simulatePair sims type)
           (fun k2 x acc => assign2 acc type k2 x)).
Qed.

Lemma simulateObservations_wellFormed (ts : TimeSettingsMap) (sims : SimulatorMap) :
  wellFormed2 ts = true ->
  simulateObservations ts sims
  = (xss <- traverse2 (simulatePair sims) ts ;; Returns (dropEmpty xss)).
Proof.
  intro Hwf. rewrite simulateObservations_traverse.
  destruct (traverse2 (simulatePair sims) ts) as [xss|e] eqn:T; simpl; [|reflexivity].
  pose proof (traverse2_wellFormed2 _ _ _ T) as H. rewrite Hwf in H.
  unfold wellFormed2 in H. apply andb_true_iff in H as [Hk Hin].
  f_equal. apply (fill2_spec xss []); assumption.
Qed.

(** The noise-free observations of a well-formed input form a well-formed
    map with the key pairs of the input. *)
Lemma simulateObservations_shape (ts : TimeSettingsMap) (sims : SimulatorMap)
    (out : ObservationsMap) :
  wellFormed2 ts = true ->
  simulateObservations ts sims = Returns out ->
  wellFormed2 out = true /\ keyPairs out = keyPairs ts.
Proof.
  intros Hwf H. rewrite (simulateObservations_wellFormed ts sims Hwf) in H.
  destruct (traverse2 (simulatePair sims) ts) as [xss|e] eqn:T; simpl in H;
    [|discriminate].
  injection H as <-. split.
  - apply dropEmpty_wellFormed2. now rewrite (traverse2_wellFormed2 _ _ _ T).
  - rewrite keyPairs_dropEmpty. exact (traverse2_keyPairs _ _ _ T).
Qed.

(** ** Time settings from tables of times *)

Lemma mapValues_keys {V W : Type} (g : nat -> V -> W) (m : stdmap V) :
  keys (mapValues g m) = keys m.
Proof.
  unfold keys, mapValues. rewrite map_map. reflexivity.
Qed.

Lemma tabulatedSettings_wellFormed2 (table : TimeTable) :
  wellFormed2 (tabulatedSettings table) = wellFormed2 table.
Proof.
  unfold wellFormed2, wellFormed, tabulatedSettings.
  rewrite mapValues_keys. f_equal.
  induction table as [|[k inner] rest IH]; simpl; [reflexivity|].
  rewrite IH. now rewrite (mapValues_keys _ inner).
Qed.

Lemma createObservationSimulationTimeSettingsMap_fill (table : TimeTable) :
  createObservationSimulationTimeSettingsMap table
  = fill2 (tabulatedSettings table) [].
Proof.
  unfold createObservationSimulationTimeSettingsMap, fill2, tabulatedSettings.
  rewrite <- (forEachPure_mapValues
                (fun _ inner => mapValues _ inner)
                (fun k1 xs acc =>
                   forEachPure xs (fun k2 x acc => assign2 acc k1 k2 x) acc)).
  apply forEachPure_ext. intros type inner acc.
  apply (forEachPure_mapValues
           (fun _ entry =>
              Some (TabulatedObservationSimulationTimeSettings (snd entry) (fst entry)))
           (fun k2 x acc => assign2 acc type k2 x)).
Qed.

Lemma createObservationSimulationTimeSettingsMap_wellFormed (table : TimeTable) :
  wellFormed2 table = true ->
  createObservationSimulationTimeSettingsMap table
  = dropEmpty (tabulatedSettings table).
Proof.
  intro Hwf. rewrite createObservationSimulationTimeSettingsMap_fill.
  rewrite <- tabulatedSettings_wellFormed2 in Hwf.
  unfold wellFormed2 in Hwf. apply andb_true_iff in Hwf as [Hk Hin].
  apply (fill2_spec _ []); assumption.
Qed.

(** Entries with an empty inner map do not influence a traversal. *)
Lemma traverse2_dropEmpty {V W : Type} (g : nat -> nat -> V -> outcome W)
    (m : stdmap (stdmap V)) :
  (xss <- traverse2 g (dropEmpty m) ;; Returns (dropEmpty xss))
  = (xss <- traverse2 g m ;; Returns (dropEmpty xss)).
Proof.
  unfold traverse2. induction m as [|[k inner] rest IH]; simpl; [reflexivity|].
  destruct inner as [|[k2 v] inner']; simpl.
  - rewrite IH. destruct (traverse _ rest); reflexivity.
  - destruct (g k k2 v) as [x|e]; simpl; [|reflexivity].
    destruct (traverse (g k) inner') as [xs|e]; simpl; [|reflexivity].
    destruct (traverse _ (dropEmpty rest)) as [a|e];
      destruct (traverse _ rest) as [b|e']; simpl in *;
      try congruence.
Qed.

(** ** Exceptions of a traversal *)

Lemma traverse_throws_at {V W : Type} (g : nat -> V -> outcome W)
    (pre post : stdmap V) (k : nat) (v : V) (e : Exception) :
  returnsb (traverse g pre) = true ->
  g k v = Throws e ->
  traverse g (pre ++ (k, v) :: post) = Throws e.
Proof.
  intros Hpre Hg. rewrite traverse_app.
  destruct (traverse g pre); [|discriminate]. simpl. now rewrite Hg.
Qed.

Lemma traverse_returns_In {V W : Type} (g : nat -> V -> outcome W)
    (m : stdmap V) (xs : stdmap W) (k : nat) (v : V) :
  traverse g m = Returns xs -> In (k, v) m -> exists x, g k v = Returns x.
Proof.
  revert xs. induction m as [|[k' v'] rest IH]; intros xs H Hin; [destruct Hin|].
  simpl in H. destruct (g k' v') as [x|e] eqn:G; simpl in H; [|discriminate].
  destruct (traverse g rest) as [xs'|e]; simpl in H; [|discriminate].
  destruct Hin as [Heq|Hin].
  - injection Heq as <- <-. now exists x.
  - now apply (IH xs').
Qed.

Lemma traverse_throws_In {V W : Type} (g : nat -> V -> outcome W)
    (m : stdmap V) (k : nat) (v : V) (e : Exception) :
  In (k, v) m -> g k v = Throws e -> exists e', traverse g m = Throws e'.
Proof.
  intros Hin Hg. destruct (traverse g m) as [xs|e'] eqn:T.
  - destruct (traverse_returns_In g m xs k v T Hin) as [x Hx]. congruence.
  - now exists e'.
Qed.

Lemma simulateObservations_throws (ts : TimeSettingsMap) (sims : SimulatorMap)
    (e : Exception) :
  simulateObservations ts sims = Throws e <->
  traverse2 (simulatePair sims) ts = Throws e.
Proof.
  rewrite simulateObservations_traverse.
  destruct (traverse2 (simulatePair sims) ts); simpl; split; intro H;
    solve [discriminate H | exact H].
Qed.

(** * The single-set simulator *)

(** C6: for a settings object that is not of the tabulated variant,
    [simulateSingleObservationSet] returns the empty result (no values, no
    times) and does not throw, whatever the model; so does the overload that
    takes a simulator, once the simulator has resolved a model. *)
Theorem simulateSingleObservationSet_unrecognised_settings
    (ObservationSize : nat) (settings : SettingsPointer) :
  isTabulated settings = false ->
  (forall model,
      simulateSingleObservationSet ObservationSize settings model
      = Returns emptyObservationSet) /\
  (forall simulator linkEnds model,
      getObservationModel simulator linkEnds = Returns model ->
      simulateSingleObservationSetFromSimulator ObservationSize settings
        (Some simulator) linkEnds
      = Returns emptyObservationSet).
Proof.
  intro H. split.
  - intro model. destruct settings as [[r|r times]|]; try discriminate H;
      reflexivity.
  - intros simulator linkEnds model Hmodel.
    unfold simulateSingleObservationSetFromSimulator. rewrite Hmodel. cbn [bind].
    destruct settings as [[r|r times]|]; try discriminate H; reflexivity.
Qed.

Lemma simulateSingleObservationSet_unrecognised_settings_witness :
  isTabulated (Some (BaseTimeSettings 1%Z)) = false /\
  simulateSingleObservationSet 2 (Some (BaseTimeSettings 1%Z)) None
  = Returns emptyObservationSet.
Proof.
  split; [reflexivity|].
  apply (proj1 (simulateSingleObservationSet_unrecognised_settings
                  2 (Some (BaseTimeSettings 1%Z)) eq_refl)).
Defined.

(** C3: when the registry of the simulator holds no observation model for
    the link ends, the overload of [simulateSingleObservationSet] that takes
    a simulator and link ends throws [NullModelError], whatever the settings:
    the model is resolved before the overload taking a model is entered, so
    that nothing is evaluated and no empty result is returned.  A NULL
    simulator is refused before that. *)
Theorem simulateSingleObservationSet_unregistered
    (ObservationSize : nat) (settings : SettingsPointer) (linkEnds : LinkEnds) :
  simulateSingleObservationSetFromSimulator ObservationSize settings None linkEnds
  = Throws NullSimulatorError /\
  (forall simulator,
      observationModels_ simulator linkEnds = None ->
      simulateSingleObservationSetFromSimulator ObservationSize settings
        (Some simulator) linkEnds
      = Throws NullModelError).
Proof.
  split; [reflexivity|]. intros simulator H.
  unfold simulateSingleObservationSetFromSimulator, getObservationModel.
  now rewrite H.
Qed.

Lemma simulateSingleObservationSet_unregistered_witness :
  observationModels_ unregisteredSimulator 0 = None /\
  simulateSingleObservationSetFromSimulator 1 (tabulated [0%float])
    (Some unregisteredSimulator) 0
  = Throws NullModelError /\
  simulateSingleObservationSetFromSimulator 1 (Some (BaseTimeSettings 1%Z))
    (Some unregisteredSimulator) 0
  = Throws NullModelError.
Proof.
  split; [reflexivity|]. split.
  - exact (proj2 (simulateSingleObservationSet_unregistered 1 (tabulated [0%float]) 0)
             unregisteredSimulator eq_refl).
  - exact (proj2 (simulateSingleObservationSet_unregistered 1
                    (Some (BaseTimeSettings 1%Z)) 0)
             unregisteredSimulator eq_refl).
Defined.

(** * The aggregating simulator *)

(** C7: on a well-formed table, the overload of [simulateObservations] that
    takes tables of times returns (or throws) what the overload taking time
    settings does on the converted table, be the conversion the one of
    [createObservationSimulationTimeSettingsMap] or its description
    [tabulatedSettings]. *)
Theorem simulateObservationsFromTimes_refines (table : TimeTable)
    (sims : SimulatorMap) :
  wellFormed2 table = true ->
  simulateObservationsFromTimes table sims
  = simulateObservations (createObservationSimulationTimeSettingsMap table) sims /\
  simulateObservationsFromTimes table sims
  = simulateObservations (tabulatedSettings table) sims.
Proof.
  intro Hwf. split; [reflexivity|].
  unfold simulateObservationsFromTimes.
  rewrite (createObservationSimulationTimeSettingsMap_wellFormed table Hwf).
  assert (Ht : wellFormed2 (tabulatedSettings table) = true)
    by now rewrite tabulatedSettings_wellFormed2.
  rewrite (simulateObservations_wellFormed _ sims (dropEmpty_wellFormed2 _ Ht)).
  rewrite (simulateObservations_wellFormed _ sims Ht).
  apply traverse2_dropEmpty.
Qed.

Lemma simulateObservationsFromTimes_refines_witness :
  wellFormed2 [(2, [(0, ([1%float; 2%float], 1%Z)); (5, ([], 2%Z))]); (4, [])] = true /\
  simulateObservationsFromTimes
    [(2, [(0, ([1%float; 2%float], 1%Z)); (5, ([], 2%Z))]); (4, [])]
    [(2, rampSimulator 2)]
  = simulateObservations
      (tabulatedSettings
         [(2, [(0, ([1%float; 2%float], 1%Z)); (5, ([], 2%Z))]); (4, [])])
      [(2, rampSimulator 2)].
Proof.
  split; [reflexivity|].
  exact (proj2 (simulateObservationsFromTimes_refines
                  [(2, [(0, ([1%float; 2%float], 1%Z)); (5, ([], 2%Z))]); (4, [])]
                  [(2, rampSimulator 2)] eq_refl)).
Defined.

(** C5: for a pair of the time settings whose observable has a simulator, a
    reported size [n] of 1, 2 or 3 selects the evaluation path of that
    width: the simulator is cast to width [n] (a simulator of another width
    is refused) and the single-set simulation of width [n] is run with the
    model it resolves, which for tabulated settings stacks [n] components
    per time.  Any other size makes the pair throw
    [UnsupportedDimensionError], without a fallback, so that the whole call
    throws, and throws that exception when the pairs before it in iteration
    order return. *)
Theorem simulateObservations_dispatch (ts : TimeSettingsMap) (sims : SimulatorMap)
    (type : ObservableType) (inner : stdmap SettingsPointer)
    (linkEnds : LinkEnds) (settings : SettingsPointer)
    (simulator : ObservationSimulator) :
  In (type, inner) ts ->
  In (linkEnds, settings) inner ->
  map_at sims type = Some simulator ->
  (forall n : nat,
      n = 1 \/ n = 2 \/ n = 3 ->
      getObservationSize simulator linkEnds = Z.of_nat n ->
      (simulatorWidth simulator <> Z.of_nat n ->
       simulatePair sims type linkEnds settings
       = Throws (DynamicCastError (Z.of_nat n))) /\
      (simulatorWidth simulator = Z.of_nat n ->
       simulatePair sims type linkEnds settings
       = (observationModel <- getObservationModel simulator linkEnds ;;
          simulateSingleObservationSet n settings (Some observationModel)) /\
       forall r times model,
         settings = Some (TabulatedObservationSimulationTimeSettings r times) ->
         observationModels_ simulator linkEnds = Some model ->
         simulatePair sims type linkEnds settings
         = Returns (flat_map (fun t => map (model t r) (seq 0 n)) times,
                    (times, r)))) /\
  (getObservationSize simulator linkEnds <> 1%Z ->
   getObservationSize simulator linkEnds <> 2%Z ->
   getObservationSize simulator linkEnds <> 3%Z ->
   simulatePair sims type linkEnds settings
   = Throws (UnsupportedDimensionError (getObservationSize simulator linkEnds)) /\
   (exists e, simulateObservations ts sims = Throws e) /\
   (forall pre post ipre ipost,
       ts = pre ++ (type, ipre ++ (linkEnds, settings) :: ipost) :: post ->
       returnsb (traverse2 (simulatePair sims) pre) = true ->
       returnsb (traverse (simulatePair sims type) ipre) = true ->
       simulateObservations ts sims
       = Throws (UnsupportedDimensionError (getObservationSize simulator linkEnds)))).
Proof.
  intros Hin1 Hin2 Hsim. split.
  - intros n Hn Hrep.
    assert (Hpair : simulatePair sims type linkEnds settings
                    = simulateWithSize n simulator settings linkEnds).
    { unfold simulatePair. rewrite Hsim. cbv zeta. rewrite Hrep.
      destruct Hn as [->|[->| ->]]; reflexivity. }
    rewrite Hpair. unfold simulateWithSize, dynamic_pointer_cast. split.
    + intro Hw. apply Z.eqb_neq in Hw. now rewrite Hw.
    + intro Hw. rewrite Hw, Z.eqb_refl.
      unfold simulateSingleObservationSetFromSimulator.
      split; [reflexivity|].
      intros r times model -> Hmodel.
      unfold getObservationModel. rewrite Hmodel. reflexivity.
  - intros H1 H2 H3.
    assert (Hpair : simulatePair sims type linkEnds settings
                    = Throws (UnsupportedDimensionError
                                (getObservationSize simulator linkEnds))).
    { apply Z.eqb_neq in H1, H2, H3.
      unfold simulatePair. rewrite Hsim. cbv zeta. now rewrite H1, H2, H3. }
    split; [exact Hpair|]. split.
    + destruct (traverse_throws_In (simulatePair sims type) inner linkEnds settings
                  _ Hin2 Hpair) as [e He].
      destruct (traverse_throws_In
                  (fun k1 inner => traverse (simulatePair sims k1) inner)
                  ts type inner e Hin1 He) as [e' He'].
      exists e'. now apply simulateObservations_throws.
    + intros pre post ipre ipost -> Hpre Hipre.
      apply simulateObservations_throws. unfold traverse2.
      apply traverse_throws_at; [exact Hpre|]. cbv beta.
      apply traverse_throws_at; [exact Hipre | exact Hpair].
Qed.

Lemma simulateObservations_dispatch_witness :
  simulatePair widthSimulators 1 0 (tabulated [10%float])
  = Returns ([10%float], ([10%float], 1%Z)) /\
  simulatePair widthSimulators 2 0 (tabulated [10%float])
  = Returns ([10; 11]%float, ([10%float], 1%Z)) /\
  simulatePair widthSimulators 3 0 (tabulated [10%float])
  = Returns ([10; 11; 12]%float, ([10%float], 1%Z)) /\
  simulatePair [(1, mismatchedSimulator)] 1 0 (tabulated [10%float])
  = Throws (DynamicCastError 1) /\
  simulateObservations
    [(0, [(0, tabulated [1%float])]); (1, [(3, tabulated [])])]
    [(0, rampSimulator 2); (1, reportingSimulator 4)]
  = Throws (UnsupportedDimensionError 4).
Proof.
  split; [|split; [|split; [|split]]].
  - refine (proj2 (proj2 (proj1 (simulateObservations_dispatch
              widthSettings widthSimulators 1 [(0, tabulated [10%float])] 0
              (tabulated [10%float]) (rampSimulator 1) _ _ eq_refl)
              1 _ eq_refl) eq_refl)
              1%Z [10%float] _ eq_refl eq_refl);
      [now left | now left | now left].
  - refine (proj2 (proj2 (proj1 (simulateObservations_dispatch
              widthSettings widthSimulators 2 [(0, tabulated [10%float])] 0
              (tabulated [10%float]) (rampSimulator 2) _ _ eq_refl)
              2 _ eq_refl) eq_refl)
              1%Z [10%float] _ eq_refl eq_refl);
      [right; now left | now left | right; now left].
  - refine (proj2 (proj2 (proj1 (simulateObservations_dispatch
              widthSettings widthSimulators 3 [(0, tabulated [10%float])] 0
              (tabulated [10%float]) (rampSimulator 3) _ _ eq_refl)
              3 _ eq_refl) eq_refl)
              1%Z [10%float] _ eq_refl eq_refl);
      [right; right; now left | now left | right; now right].
  - refine (proj1 (proj1 (simulateObservations_dispatch
              [(1, [(0, tabulated [10%float])])] [(1, mismatchedSimulator)]
              1 [(0, tabulated [10%float])] 0 (tabulated [10%float])
              mismatchedSimulator _ _ eq_refl) 1 _ eq_refl) _);
      [now left | now left | now left | discriminate].
  - refine (proj2 (proj2 (proj2
              (simulateObservations_dispatch
                 [(0, [(0, tabulated [1%float])]); (1, [(3, tabulated [])])]
                 [(0, rampSimulator 2); (1, reportingSimulator 4)]
                 1 [(3, tabulated [])] 3 (tabulated [])
                 (reportingSimulator 4) _ _ eq_refl) _ _ _))
              [(0, [(0, tabulated [1%float])])] [] [] []
              eq_refl eq_refl eq_refl).
    + right. now left.
    + now left.
    + discriminate.
    + discriminate.
    + discriminate.
Defined.

(** * Noise injection *)

(** ** Vectors and segments *)

Lemma addVectors_length (a b : Vector) :
  length a = length b -> length (addVectors a b) = length a.
Proof.
  intro H. unfold addVectors. rewrite length_map, length_combine. lia.
Qed.

Lemma segment_length (v : Vector) (start size : nat) :
  start + size <= length v -> length (segment v start size) = size.
Proof.
  intro H. unfold segment. rewrite length_firstn, length_skipn. lia.
Qed.

Lemma segmentAdd_returns (v : Vector) (start size : Z) (w v1 : Vector) :
  segmentAdd v start size w = Returns v1 ->
  (0 <= start)%Z /\ (0 <= size)%Z /\
  Z.to_nat start + Z.to_nat size <= length v /\
  length w = Z.to_nat size /\
  v1 = firstn (Z.to_nat start) v
       ++ addVectors (segment v (Z.to_nat start) (Z.to_nat size)) w
       ++ skipn (Z.to_nat start + Z.to_nat size) v.
Proof.
  unfold segmentAdd, rows. intro H.
  destruct ((0 <=? start)%Z) eqn:E1; [|discriminate].
  destruct ((0 <=? size)%Z) eqn:E2; [|discriminate].
  destruct ((start + size <=? Z.of_nat (length v))%Z) eqn:E3; [|discriminate].
  destruct ((Z.of_nat (length w) =? size)%Z) eqn:E4; [|discriminate].
  simpl in H. injection H as <-.
  apply Z.leb_le in E1, E2, E3. apply Z.eqb_eq in E4.
  repeat split; try assumption; lia.
Qed.

(** The block [j] of the closed form is the block [j] of the vector plus
    the [j]-th added vector. *)
Lemma addBlocks_segment (size : nat) (ws : list Vector) :
  forall (v : Vector) (j : nat),
    Forall (fun w => length w = size) ws ->
    length ws * size <= length v ->
    j < length ws ->
    segment (addBlocks size v ws) (j * size) size
    = addVectors (segment v (j * size) size) (nth j ws []).
Proof.
  induction ws as [|w rest IH]; intros v j Hall Hlen Hj; simpl in Hj; [lia|].
  inversion Hall as [|w' rest' Hw Hrest]; subst.
  simpl in Hlen.
  assert (Hhead : length (addVectors (firstn (length w) v) w) = length w).
  { rewrite addVectors_length; rewrite length_firstn; lia. }
  destruct j as [|j]; simpl.
  - unfold segment. simpl. rewrite firstn_app, Hhead, Nat.sub_diag. simpl.
    rewrite app_nil_r. rewrite firstn_all2 by lia. reflexivity.
  - unfold segment.
    rewrite skipn_app, Hhead.
    rewrite (skipn_all2 (addVectors _ _)) by lia. simpl.
    replace (length w + j * length w - length w) with (j * length w) by lia.
    fold (segment (addBlocks (length w) (skipn (length w) v) rest)
            (j * length w) (length w)).
    rewrite IH; [| exact Hrest | rewrite length_skipn; lia | lia].
    unfold segment. rewrite skipn_skipn.
    now replace (j * length w + length w) with (length w + j * length w) by lia.
Qed.

Lemma addBlocks_length (size : nat) (ws : list Vector) :
  forall v : Vector,
    Forall (fun w => length w = size) ws ->
    length ws * size <= length v ->
    length (addBlocks size v ws) = length v.
Proof.
  induction ws as [|w rest IH]; intros v Hall Hlen; simpl; [reflexivity|].
  inversion Hall as [|w' rest' Hw Hrest]; subst. simpl in Hlen.
  rewrite length_app, addVectors_length by (rewrite length_firstn; lia).
  rewrite IH; [| exact Hrest | rewrite length_skipn; lia].
  rewrite length_firstn, length_skipn. lia.
Qed.

(** ** The loop over the samples *)

Lemma to_nat_index (i : nat) (d : Z) :
  (0 <= d)%Z -> Z.to_nat (Z.of_nat i * d) = i * Z.to_nat d.
Proof.
  intro H. rewrite Z2Nat.inj_mul by lia. now rewrite Nat2Z.id.
Qed.

(** When the loop returns, every sample got a noise vector of the size of
    the observable, and the result is the closed form [addBlocks]. *)
Lemma addNoiseLoop_returns (d : Z) (f : NoiseFunction) (remaining : list TimeType) :
  forall (i : nat) (v v' : Vector),
    addNoiseLoop d f remaining i v = Returns v' ->
    exists ws,
      Forall2 (fun t w => callNoiseFunction f t = Returns w) remaining ws /\
      Forall (fun w => length w = Z.to_nat d) ws /\
      length ws * Z.to_nat d <= length (skipn (i * Z.to_nat d) v) /\
      v' = firstn (i * Z.to_nat d) v
           ++ addBlocks (Z.to_nat d) (skipn (i * Z.to_nat d) v) ws.
Proof.
  induction remaining as [|t rest IH]; intros i v v' H; cbn [addNoiseLoop] in H.
  - injection H as <-. exists []. simpl.
    repeat split; try constructor; try lia. now rewrite firstn_skipn.
  - unfold bind in H.
    assert (Hcall : exists w v1,
               callNoiseFunction f t = Returns w /\
               segmentAdd v (Z.of_nat i * d) d w = Returns v1 /\
               addNoiseLoop d f rest (S i) v1 = Returns v').
    { destruct (callNoiseFunction f t) as [w|e] eqn:Hw.
      2: { destruct (Nat.eqb i 0); discriminate. }
      destruct (segmentAdd v (Z.of_nat i * d) d w) as [v1|e] eqn:Hs.
      2: { destruct (Nat.eqb i 0); [destruct (negb _)|]; discriminate. }
      exists w, v1. split; [reflexivity|]. split; [exact Hs|].
      destruct (Nat.eqb i 0); [destruct (negb _); [discriminate|]|]; exact H. }
    clear H. destruct Hcall as (w & v1 & Hw & Hseg & Hloop).
    apply segmentAdd_returns in Hseg as (_ & Hd & Hrange & Hlen & ->).
    rewrite (to_nat_index i d Hd) in *.
    set (dn := Z.to_nat d) in *.
    apply IH in Hloop as (ws & Hws & Hall & Hbound & ->).
    fold dn in Hall, Hbound.
    assert (Hseglen : length (addVectors (segment v (i * dn) dn) w) = dn).
    { rewrite addVectors_length; rewrite segment_length; lia. }
    assert (Hpre : length (firstn (i * dn) v) = i * dn)
      by (rewrite length_firstn; lia).
    assert (Hskip : skipn (S i * dn)
                      (firstn (i * dn) v
                       ++ addVectors (segment v (i * dn) dn) w
                       ++ skipn (i * dn + dn) v)
                    = skipn (i * dn + dn) v).
    { rewrite app_assoc. rewrite skipn_app.
      rewrite skipn_all2 by (rewrite length_app; simpl; lia).
      rewrite length_app, Hpre, Hseglen.
      replace (S i * dn - (i * dn + dn)) with 0 by (simpl; lia).
      reflexivity. }
    assert (Hfirst : firstn (S i * dn)
                       (firstn (i * dn) v
                        ++ addVectors (segment v (i * dn) dn) w
                        ++ skipn (i * dn + dn) v)
                     = firstn (i * dn) v ++ addVectors (segment v (i * dn) dn) w).
    { rewrite app_assoc. rewrite firstn_app.
      rewrite length_app, Hpre, Hseglen.
      replace (S i * dn - (i * dn + dn)) with 0 by (simpl; lia).
      simpl. rewrite app_nil_r.
      apply firstn_all2. rewrite length_app. simpl. lia. }
    rewrite Hskip in Hbound |- *. rewrite Hfirst.
    exists (w :: ws). split; [now constructor|]. split; [now constructor|].
    split.
    + rewrite length_skipn in Hbound |- *. simpl. lia.
    + simpl. rewrite <- app_assoc. f_equal. f_equal.
      rewrite skipn_skipn. now rewrite (Nat.add_comm dn).
Qed.

Lemma Forall2_nth_both {A B : Type} (R : A -> B -> Prop) (l : list A) (l' : list B)
    (a : A) (b : B) :
  Forall2 R l l' ->
  length l = length l' /\ forall i, i < length l -> R (nth i l a) (nth i l' b).
Proof.
  induction 1 as [|x y l l' Hxy _ [IHlen IH]]; simpl.
  - split; [reflexivity | intros i Hi; lia].
  - split; [now rewrite IHlen|]. intros [|i] Hi; [exact Hxy | apply IH; lia].
Qed.

Section NoiseProperties.

Variable getObservableSize : ObservableType -> Z.

(** ** One set of observations *)

Lemma addNoiseToSet_returns (nf : stdmap (stdmap NoiseFunction))
    (type : ObservableType) (linkEnds : LinkEnds) (nominal set : ObservationSet) :
  addNoiseToSet getObservableSize nf type linkEnds nominal = Returns set ->
  getObservableSize type <> 0%Z /\
  Z.of_nat (length (fst (snd nominal)))
  = Z.quot (rows (fst nominal)) (getObservableSize type) /\
  exists f ws,
    map_at2 nf type linkEnds = Some f /\
    Forall2 (fun t w => callNoiseFunction f t = Returns w) (fst (snd nominal)) ws /\
    Forall (fun w => length w = Z.to_nat (getObservableSize type)) ws /\
    length ws * Z.to_nat (getObservableSize type) <= length (fst nominal) /\
    set = (addBlocks (Z.to_nat (getObservableSize type)) (fst nominal) ws,
           snd nominal).
Proof.
  unfold addNoiseToSet. cbv zeta. intro H.
  destruct (Z.eqb (getObservableSize type) 0) eqn:Ed; [discriminate|].
  destruct (Z.eqb _ (Z.quot _ _)) eqn:Ec; simpl in H; [|discriminate].
  destruct (map_at2 nf type linkEnds) as [f|]; [|discriminate].
  destruct (addNoiseLoop _ f _ 0 _) as [noisy|e] eqn:L; simpl in H; [|discriminate].
  injection H as <-.
  apply Z.eqb_neq in Ed. apply Z.eqb_eq in Ec.
  apply addNoiseLoop_returns in L as (ws & Hws & Hall & Hbound & ->).
  simpl in *. split; [exact Ed|]. split; [exact Ec|].
  exists f, ws. repeat split; assumption.
Qed.

(** ** The loops over the noise-free observations *)

Lemma addNoise_loop (nf : stdmap (stdmap NoiseFunction)) (m : ObservationsMap) :
  forall acc : ObservationsMap,
    increasing (keys acc ++ keys m) = true ->
    forallb (fun e => wellFormed (snd e)) m = true ->
    forEach m
      (fun type inner noisyObservationsList =>
         single <- forEach inner
                     (fun linkEnds nominal single =>
                        set <- addNoiseToSet getObservableSize nf type linkEnds nominal ;;
                        Returns (assign single linkEnds set))
                     [] ;;
         Returns (assign noisyObservationsList type single))
      acc
    = (yss <- traverse2 (addNoiseToSet getObservableSize nf) m ;;
       Returns (acc ++ yss)).
Proof.
  unfold traverse2.
  induction m as [|[type inner] rest IH]; intros acc Hk Hin; simpl.
  - now rewrite app_nil_r.
  - simpl in Hin. apply andb_true_iff in Hin as [Hi Hrest].
    rewrite (forEach_split (addNoiseToSet getObservableSize nf type)
               (fun k x s => assign s k x) inner []).
    destruct (traverse (addNoiseToSet getObservableSize nf type) inner)
      as [ys|e] eqn:T; simpl; [|reflexivity].
    rewrite (fill_flat ys []).
    2: { simpl. rewrite (traverse_keys _ _ _ T). exact Hi. }
    simpl. rewrite assign_above.
    2: { apply increasing_app in Hk as (_ & _ & Hk). intros k' Hk'.
         apply Hk; [exact Hk' | now left]. }
    rewrite IH; [| rewrite keys_app; simpl; now rewrite <- app_assoc | exact Hrest].
    destruct (traverse _ rest); simpl; [|reflexivity].
    now rewrite <- app_assoc.
Qed.

Lemma addNoise_traverse (nf : stdmap (stdmap NoiseFunction)) (m : ObservationsMap) :
  wellFormed2 m = true ->
  addNoise getObservableSize nf m
  = traverse2 (addNoiseToSet getObservableSize nf) m.
Proof.
  unfold wellFormed2, wellFormed. intro H.
  apply andb_true_iff in H as [Hk Hin].
  unfold addNoise. rewrite (addNoise_loop nf m [] Hk Hin).
  destruct (traverse2 _ m); reflexivity.
Qed.

(** The noisy simulation of a well-formed input: the noise-free
    observations, then the noise, set by set. *)
Lemma simulateObservationsWithNoise_returns (ts : TimeSettingsMap)
    (sims : SimulatorMap) (nf : stdmap (stdmap NoiseFunction))
    (noisy : ObservationsMap) :
  wellFormed2 ts = true ->
  simulateObservationsWithNoise getObservableSize ts sims nf = Returns noisy ->
  exists noiseFree,
    simulateObservations ts sims = Returns noiseFree /\
    wellFormed2 noiseFree = true /\
    traverse2 (addNoiseToSet getObservableSize nf) noiseFree = Returns noisy.
Proof.
  intros Hwf H. unfold simulateObservationsWithNoise in H.
  destruct (simulateObservations ts sims) as [noiseFree|e] eqn:S; simpl in H;
    [|discriminate].
  destruct (simulateObservations_shape ts sims noiseFree Hwf S) as [Hout _].
  exists noiseFree. split; [reflexivity|]. split; [exact Hout|].
  now rewrite <- (addNoise_traverse nf noiseFree Hout).
Qed.

End NoiseProperties.

(** * Noise is added sample by sample *)

(** C1, as stated, fails: with times 0, 1, 2, a model that doubles the time
    and the constant noise 0.1, the noisy value of the second sample minus
    the noise-free value is not the noise. *)
Lemma noise_difference_is_rounded :
  simulateObservations [(0, [(0, tabulated [0; 1; 2]%float)])] [(0, doublingSimulator)]
  = Returns [(0, [(0, ([0; 2; 4]%float, ([0; 1; 2]%float, 1%Z)))])] /\
  (exists v,
      simulateObservationsWithNoise (fun _ => 1%Z)
        [(0, [(0, tabulated [0; 1; 2]%float)])] [(0, doublingSimulator)]
        [(0, [(0, constantNoise [oneTenth])])]
      = Returns [(0, [(0, (v, ([0; 1; 2]%float, 1%Z)))])] /\
      subVectors (segment v 1 1) (segment [0; 2; 4]%float 1 1) <> [oneTenth]).
Proof.
  split; [reflexivity|]. eexists. split; [vm_compute; reflexivity|].
  intro H.
  apply (f_equal (fun l => match l with
                           | [x] => PrimFloat.eqb x oneTenth
                           | _ => true
                           end)) in H.
  vm_compute in H. discriminate H.
Qed.

(** C1, amended: when the noisy simulation of a well-formed input returns,
    every set of the result has the times and the reference link end of the
    noise-free set under the same keys, and its [i]-th block of values is the
    [i]-th block of the noise-free values plus the noise at the [i]-th time,
    added element by element in double arithmetic. *)
Theorem simulateObservationsWithNoise_adds_noise
    (getObservableSize : ObservableType -> Z) (ts : TimeSettingsMap)
    (sims : SimulatorMap) (nf : stdmap (stdmap NoiseFunction))
    (noisy : ObservationsMap) :
  wellFormed2 ts = true ->
  simulateObservationsWithNoise getObservableSize ts sims nf = Returns noisy ->
  exists noiseFree,
    simulateObservations ts sims = Returns noiseFree /\
    forall type linkEnds v' timesAndLinkEnd,
      map_at2 noisy type linkEnds = Some (v', timesAndLinkEnd) ->
      exists v f,
        map_at2 noiseFree type linkEnds = Some (v, timesAndLinkEnd) /\
        map_at2 nf type linkEnds = Some f /\
        forall i, i < length (fst timesAndLinkEnd) ->
          exists w,
            callNoiseFunction f (nth i (fst timesAndLinkEnd) 0%float) = Returns w /\
            segment v' (i * Z.to_nat (getObservableSize type))
              (Z.to_nat (getObservableSize type))
            = addVectors
                (segment v (i * Z.to_nat (getObservableSize type))
                   (Z.to_nat (getObservableSize type)))
                w.
Proof.
  intros Hwf H.
  destruct (simulateObservationsWithNoise_returns getObservableSize ts sims nf
              noisy Hwf H) as (noiseFree & Hfree & _ & Htr).
  exists noiseFree. split; [exact Hfree|].
  intros type linkEnds v' tl Hnoisy.
  pose proof (traverse2_at2 _ noiseFree noisy type linkEnds Htr) as Hat.
  destruct (map_at2 noiseFree type linkEnds) as [[v tl0]|];
    [|rewrite Hat in Hnoisy; discriminate].
  destruct Hat as (set & Hset & Hat). rewrite Hat in Hnoisy. injection Hnoisy as ->.
  apply addNoiseToSet_returns in Hset
    as (_ & _ & f & ws & Hf & Hws & Hall & Hbound & Heq).
  simpl in *. injection Heq as -> ->.
  exists v, f. split; [reflexivity|]. split; [exact Hf|].
  intros i Hi.
  destruct (Forall2_nth_both _ _ _ 0%float [] Hws) as [Hlen Hnth].
  exists (nth i ws []). split; [now apply Hnth|].
  apply addBlocks_segment; [exact Hall | exact Hbound | ].
  exact (eq_ind _ (fun n => i < n) Hi _ Hlen).
Qed.

Lemma simulateObservationsWithNoise_adds_noise_witness :
  wellFormed2 scenarioSettings = true /\
  exists noisy,
    simulateObservationsWithNoise scenarioCatalog scenarioSettings
      scenarioSimulators scenarioNoise = Returns noisy /\
    exists noiseFree,
      simulateObservations scenarioSettings scenarioSimulators = Returns noiseFree /\
      forall type linkEnds v' timesAndLinkEnd,
        map_at2 noisy type linkEnds = Some (v', timesAndLinkEnd) ->
        exists v f,
          map_at2 noiseFree type linkEnds = Some (v, timesAndLinkEnd) /\
          map_at2 scenarioNoise type linkEnds = Some f /\
          forall i, i < length (fst timesAndLinkEnd) ->
            exists w,
              callNoiseFunction f (nth i (fst timesAndLinkEnd) 0%float) = Returns w /\
              segment v' (i * Z.to_nat (scenarioCatalog type))
                (Z.to_nat (scenarioCatalog type))
              = addVectors
                  (segment v (i * Z.to_nat (scenarioCatalog type))
                     (Z.to_nat (scenarioCatalog type)))
                  w.
Proof.
  split; [reflexivity|]. eexists. split; [vm_compute; reflexivity|].
  apply (simulateObservationsWithNoise_adds_noise scenarioCatalog
           scenarioSettings scenarioSimulators scenarioNoise);
    [reflexivity | vm_compute; reflexivity].
Defined.

(** * Keys of the results *)

(** C10: on a well-formed input, the noise-free observations that
    [simulateObservations] returns have exactly the key pairs of the time
    settings, and the noisy observations that
    [simulateObservationsWithNoise] returns have exactly the keys, at both
    levels, of the noise-free observations they come from. *)
Theorem simulateObservations_keys (ts : TimeSettingsMap) (sims : SimulatorMap) :
  wellFormed2 ts = true ->
  (forall out,
      simulateObservations ts sims = Returns out ->
      keyPairs out = keyPairs ts) /\
  (forall getObservableSize nf noisy,
      simulateObservationsWithNoise getObservableSize ts sims nf = Returns noisy ->
      exists noiseFree,
        simulateObservations ts sims = Returns noiseFree /\
        keys noisy = keys noiseFree /\
        keyPairs noisy = keyPairs noiseFree).
Proof.
  intro Hwf. split.
  - intros out H. exact (proj2 (simulateObservations_shape ts sims out Hwf H)).
  - intros getObservableSize nf noisy H.
    destruct (simulateObservationsWithNoise_returns getObservableSize ts sims nf
                noisy Hwf H) as (noiseFree & Hfree & _ & Htr).
    exists noiseFree. split; [exact Hfree|]. split.
    + exact (traverse_keys _ _ _ Htr).
    + exact (traverse2_keyPairs _ _ _ Htr).
Qed.

Lemma simulateObservations_keys_witness :
  wellFormed2 [(1, [(2, tabulated [1%float]); (5, None)]); (3, []); (4, [(0, tabulated [])])]
  = true /\
  forall out,
    simulateObservations
      [(1, [(2, tabulated [1%float]); (5, None)]); (3, []); (4, [(0, tabulated [])])]
      [(1, rampSimulator 2); (4, rampSimulator 3)]
    = Returns out ->
    keyPairs out = [(1, 2); (1, 5); (4, 0)].
Proof.
  split; [reflexivity|].
  exact (proj1 (simulateObservations_keys
                  [(1, [(2, tabulated [1%float]); (5, None)]); (3, []);
                   (4, [(0, tabulated [])])]
                  [(1, rampSimulator 2); (4, rampSimulator 3)] eq_refl)).
Defined.

(** * The checks of the noisy simulation *)

Lemma callNoiseFunction_throws (f : NoiseFunction) (t : double) (e : Exception) :
  callNoiseFunction f t = Throws e -> e = BadFunctionCall \/ e = EigenAssertion.
Proof.
  destruct f as [|g|[s|] size]; simpl; try discriminate.
  - intro H. injection H as <-. now left.
  - unfold getIdenticallyAndIndependentlyDistributedNoise.
    destruct (size <? 0)%Z; [intro H; injection H as <-; now right|].
    destruct (Z.to_nat size); discriminate.
  - unfold getIdenticallyAndIndependentlyDistributedNoise.
    destruct (size <? 0)%Z; [intro H; injection H as <-; now right|].
    destruct (Z.to_nat size); [discriminate|].
    intro H; injection H as <-; now left.
Qed.

Lemma segmentAdd_throws (v : Vector) (start size : Z) (w : Vector) (e : Exception) :
  segmentAdd v start size w = Throws e -> e = EigenAssertion.
Proof.
  unfold segmentAdd. destruct (_ && _); [discriminate|].
  intro H. now injection H as <-.
Qed.

(** After the first sample the size of the noise is not checked any more. *)
Lemma addNoiseLoop_later (d : Z) (f : NoiseFunction) (times : list TimeType) :
  forall (i : nat) (v : Vector),
    i <> 0 -> addNoiseLoop d f times i v <> Throws InconsistentNoiseSizeError.
Proof.
  induction times as [|t rest IH]; intros i v Hi; cbn [addNoiseLoop].
  - discriminate.
  - apply Nat.eqb_neq in Hi. rewrite Hi. cbn [bind].
    destruct (callNoiseFunction f t) as [w|e] eqn:Hw; cbn [bind].
    + destruct (segmentAdd v (Z.of_nat i * d) d w) as [v1|e] eqn:Hs; cbn [bind].
      * apply IH. discriminate.
      * apply segmentAdd_throws in Hs. subst e. discriminate.
    + apply callNoiseFunction_throws in Hw as [->| ->]; discriminate.
Qed.

Lemma addNoiseLoop_first (d : Z) (f : NoiseFunction) (t0 : TimeType)
    (rest : list TimeType) (v w : Vector) :
  callNoiseFunction f t0 = Returns w ->
  (addNoiseLoop d f (t0 :: rest) 0 v = Throws InconsistentNoiseSizeError
   <-> rows w <> d).
Proof.
  intro Hw. cbn [addNoiseLoop Nat.eqb]. rewrite Hw. cbn [bind].
  destruct (Z.eqb (rows w) d) eqn:E; cbn [negb bind].
  - apply Z.eqb_eq in E. split; [|intro H; contradiction].
    intro H. exfalso. revert H.
    destruct (segmentAdd v (Z.of_nat 0 * d) d w) as [v1|e] eqn:Hs; cbn [bind].
    + apply addNoiseLoop_later. discriminate.
    + apply segmentAdd_throws in Hs. subst e. discriminate.
  - apply Z.eqb_neq in E. split; [intros _; exact E | reflexivity].
Qed.

Lemma addNoiseLoop_first_throws (d : Z) (f : NoiseFunction) (t0 : TimeType)
    (rest : list TimeType) (v : Vector) (e : Exception) :
  callNoiseFunction f t0 = Throws e ->
  addNoiseLoop d f (t0 :: rest) 0 v = Throws e.
Proof.
  intro Hw. cbn [addNoiseLoop]. rewrite Hw. reflexivity.
Qed.

(** The first set whose noise addition throws decides the exception of the
    noisy simulation. *)
Lemma simulateObservationsWithNoise_first_failure
    (getObservableSize : ObservableType -> Z) (ts : TimeSettingsMap)
    (sims : SimulatorMap) (nf : stdmap (stdmap NoiseFunction))
    (pre post : ObservationsMap) (ipre ipost : stdmap ObservationSet)
    (type : ObservableType) (linkEnds : LinkEnds) (set : ObservationSet)
    (e : Exception) :
  wellFormed2 ts = true ->
  simulateObservations ts sims
  = Returns (pre ++ (type, ipre ++ (linkEnds, set) :: ipost) :: post) ->
  returnsb (traverse2 (addNoiseToSet getObservableSize nf) pre) = true ->
  returnsb (traverse (addNoiseToSet getObservableSize nf type) ipre) = true ->
  addNoiseToSet getObservableSize nf type linkEnds set = Throws e ->
  simulateObservationsWithNoise getObservableSize ts sims nf = Throws e.
Proof.
  intros Hwf Hfree Hpre Hipre Hset.
  unfold simulateObservationsWithNoise. rewrite Hfree. cbn [bind].
  rewrite addNoise_traverse
    by exact (proj1 (simulateObservations_shape ts sims _ Hwf Hfree)).
  unfold traverse2. apply traverse_throws_at; [exact Hpre|]. cbv beta.
  apply traverse_throws_at; [exact Hipre | exact Hset].
Qed.

(** C9: the size of the noise vector is compared with the size of the
    observable at the first sample only.  A set throws
    [InconsistentNoiseSizeError] exactly when the earlier checks pass, the
    list of times is not empty and the noise function returns, at the first
    time, a vector of another size; from the second sample on the loop never
    throws it; for an empty list of times the loop returns the values
    untouched; and the exception of a set is the exception of the whole call
    when the sets before it pass. *)
Theorem noise_size_checked_at_first_sample
    (getObservableSize : ObservableType -> Z) (nf : stdmap (stdmap NoiseFunction))
    (type : ObservableType) (linkEnds : LinkEnds)
    (v : Vector) (times : list TimeType) (r : LinkEndType) :
  (addNoiseToSet getObservableSize nf type linkEnds (v, (times, r))
   = Throws InconsistentNoiseSizeError
   <->
   getObservableSize type <> 0%Z /\
   Z.of_nat (length times) = Z.quot (rows v) (getObservableSize type) /\
   exists f t0 rest w,
     map_at2 nf type linkEnds = Some f /\
     times = t0 :: rest /\
     callNoiseFunction f t0 = Returns w /\
     rows w <> getObservableSize type) /\
  (forall f i v0,
      i <> 0 ->
      addNoiseLoop (getObservableSize type) f times i v0
      <> Throws InconsistentNoiseSizeError) /\
  (forall f i v0, addNoiseLoop (getObservableSize type) f [] i v0 = Returns v0) /\
  (forall ts sims pre post ipre ipost,
      wellFormed2 ts = true ->
      simulateObservations ts sims
      = Returns (pre ++ (type, ipre ++ (linkEnds, (v, (times, r))) :: ipost) :: post) ->
      returnsb (traverse2 (addNoiseToSet getObservableSize nf) pre) = true ->
      returnsb (traverse (addNoiseToSet getObservableSize nf type) ipre) = true ->
      addNoiseToSet getObservableSize nf type linkEnds (v, (times, r))
      = Throws InconsistentNoiseSizeError ->
      simulateObservationsWithNoise getObservableSize ts sims nf
      = Throws InconsistentNoiseSizeError).
Proof.
  split; [|split; [|split]].
  - unfold addNoiseToSet. cbv zeta. cbn [fst snd]. split.
    + intro H.
      destruct (Z.eqb (getObservableSize type) 0) eqn:Ed; [discriminate|].
      destruct (Z.eqb _ (Z.quot _ _)) eqn:Ec; cbn [negb] in H; [|discriminate].
      destruct (map_at2 nf type linkEnds) as [f|]; [|discriminate].
      apply Z.eqb_neq in Ed. apply Z.eqb_eq in Ec.
      split; [exact Ed|]. split; [exact Ec|].
      destruct times as [|t0 rest]; [discriminate|].
      destruct (callNoiseFunction f t0) as [w|e] eqn:Hw.
      * exists f, t0, rest, w.
        split; [reflexivity|]. split; [reflexivity|]. split; [exact Hw|].
        apply (addNoiseLoop_first _ f t0 rest v w Hw).
        destruct (addNoiseLoop _ f (t0 :: rest) 0 v) as [x|e']; [discriminate|].
        cbn [bind] in H. injection H as ->. reflexivity.
      * rewrite (addNoiseLoop_first_throws _ f t0 rest v e Hw) in H.
        cbn [bind] in H. injection H as ->.
        apply callNoiseFunction_throws in Hw as [Hw|Hw]; discriminate.
    + intros (Ed & Ec & f & t0 & rest & w & Hf & -> & Hw & Hrows).
      apply Z.eqb_neq in Ed. rewrite Ed.
      apply Z.eqb_eq in Ec. rewrite Ec. cbn [negb]. rewrite Hf.
      apply (addNoiseLoop_first _ f t0 rest v w Hw) in Hrows.
      rewrite Hrows. reflexivity.
  - intros f i v0 Hi. now apply addNoiseLoop_later.
  - reflexivity.
  - intros ts sims pre post ipre ipost.
    apply simulateObservationsWithNoise_first_failure.
Qed.

Lemma noise_size_checked_at_first_sample_witness :
  simulateObservationsWithNoise scenarioCatalog scenarioSettings
    scenarioSimulators [(0, [(0, constantNoise [oneTenth; oneTenth])])]
  = Throws InconsistentNoiseSizeError.
Proof.
  refine (proj2 (proj2 (proj2
            (noise_size_checked_at_first_sample scenarioCatalog
               [(0, [(0, constantNoise [oneTenth; oneTenth])])]
               0 0 [0; 2; 4]%float [0; 1; 2]%float 1%Z)))
            scenarioSettings scenarioSimulators [] [] [] []
            eq_refl eq_refl eq_refl eq_refl _).
  apply (proj1 (noise_size_checked_at_first_sample scenarioCatalog
                  [(0, [(0, constantNoise [oneTenth; oneTenth])])]
                  0 0 [0; 2; 4]%float [0; 1; 2]%float 1%Z)).
  split; [discriminate|]. split; [reflexivity|].
  exists (constantNoise [oneTenth; oneTenth]), 0%float, [1; 2]%float,
    [oneTenth; oneTenth].
  split; [reflexivity|]. split; [reflexivity|]. split; [reflexivity|].
  discriminate.
Defined.

Lemma addNoiseLoop_throws (d : Z) (f : NoiseFunction) (times : list TimeType) :
  forall (i : nat) (v : Vector) (e : Exception),
    addNoiseLoop d f times i v = Throws e ->
    e = InconsistentNoiseSizeError \/ e = BadFunctionCall \/ e = EigenAssertion.
Proof.
  induction times as [|t rest IH]; intros i v e; cbn [addNoiseLoop].
  - discriminate.
  - destruct (callNoiseFunction f t) as [w|e'] eqn:Hw; cbn [bind].
    + destruct (if Nat.eqb i 0 then _ else _) as [[]|e'] eqn:Hc; cbn [bind].
      * destruct (segmentAdd v (Z.of_nat i * d) d w) as [v1|e'] eqn:Hs; cbn [bind].
        -- apply IH.
        -- intro H. injection H as <-. apply segmentAdd_throws in Hs. auto.
      * intro H. injection H as <-.
        destruct (Nat.eqb i 0); [|discriminate].
        destruct (negb _); [|discriminate]. injection Hc as <-. auto.
    + assert (He : e' = BadFunctionCall \/ e' = EigenAssertion)
        by exact (callNoiseFunction_throws f t e' Hw).
      destruct (Nat.eqb i 0); cbn [bind]; intro H; injection H as <-; tauto.
Qed.

(** The check of the data consistency compares the number of times with the
    truncated quotient of the number of values by the size of the
    observable. *)
Lemma addNoiseToSet_sample_count (getObservableSize : ObservableType -> Z)
    (nf : stdmap (stdmap NoiseFunction)) (type : ObservableType)
    (linkEnds : LinkEnds) (v : Vector) (times : list TimeType) (r : LinkEndType) :
  addNoiseToSet getObservableSize nf type linkEnds (v, (times, r))
  = Throws InconsistentSampleCountError
  <->
  getObservableSize type <> 0%Z /\
  Z.of_nat (length times) <> Z.quot (rows v) (getObservableSize type).
Proof.
  unfold addNoiseToSet. cbv zeta. cbn [fst snd].
  destruct (Z.eqb (getObservableSize type) 0) eqn:Ed.
  - apply Z.eqb_eq in Ed. split; [discriminate | intros [H _]; contradiction].
  - apply Z.eqb_neq in Ed.
    destruct (Z.eqb _ (Z.quot _ _)) eqn:Ec; cbn [negb].
    + apply Z.eqb_eq in Ec. split; [|intros [_ H]; contradiction].
      destruct (map_at2 nf type linkEnds) as [f|]; [|discriminate].
      destruct (addNoiseLoop _ f times 0 v) as [x|e] eqn:L; cbn [bind];
        [discriminate|].
      intro H. injection H as ->.
      apply addNoiseLoop_throws in L as [L|[L|L]]; discriminate.
    + apply Z.eqb_neq in Ec. split; [intros _; now split | reflexivity].
Qed.

(** The check passes when the number of values is the number of times
    multiplied by the size of the observable. *)
Lemma addNoiseToSet_sample_count_exact (getObservableSize : ObservableType -> Z)
    (nf : stdmap (stdmap NoiseFunction)) (type : ObservableType)
    (linkEnds : LinkEnds) (v : Vector) (times : list TimeType) (r : LinkEndType) :
  (Z.of_nat (length times) * getObservableSize type = rows v)%Z ->
  addNoiseToSet getObservableSize nf type linkEnds (v, (times, r))
  <> Throws InconsistentSampleCountError.
Proof.
  intros Heq H. apply addNoiseToSet_sample_count in H as [Hd Hne].
  apply Hne. rewrite <- Heq. now rewrite Z.quot_mul.
Qed.

(** C4: the check divides with truncation, so it accepts a number of values
    that is not a multiple of the size of the observable.  With a catalog
    size of 2, a simulator of width 3 and one time, there are 3 values and
    [1 * 2 <> 3], yet the noisy simulation returns: the first two values
    with noise, the third without. *)
Theorem sample_count_check_truncates :
  simulateObservations [(0, [(0, tabulated [10%float])])] [(0, rampSimulator 3)]
  = Returns [(0, [(0, ([10; 11; 12]%float, ([10%float], 1%Z)))])] /\
  (Z.of_nat (length [10%float]) * 2 <> rows [10; 11; 12]%float)%Z /\
  addNoiseToSet (fun _ => 2%Z) [(0, [(0, constantNoise [0.5; 0.5]%float)])] 0 0
    ([10; 11; 12]%float, ([10%float], 1%Z))
  <> Throws InconsistentSampleCountError /\
  simulateObservationsWithNoise (fun _ => 2%Z)
    [(0, [(0, tabulated [10%float])])] [(0, rampSimulator 3)]
    [(0, [(0, constantNoise [0.5; 0.5]%float)])]
  = Returns [(0, [(0, ([10.5; 11.5; 12]%float, ([10%float], 1%Z)))])].
Proof.
  split; [vm_compute; reflexivity|]. split; [discriminate|].
  split; [vm_compute; discriminate | vm_compute; reflexivity].
Qed.

(** * Noise per observable *)

Lemma forEachPure_assign_None {V W : Type} (h : nat -> V -> W) (m : stdmap V) :
  forall (acc : stdmap W) (k : nat),
    map_at m k = None -> map_at acc k = None ->
    map_at (forEachPure m (fun k' f acc => assign acc k' (h k' f)) acc) k = None.
Proof.
  induction m as [|[k' f] rest IH]; intros acc k Hm Hacc; simpl.
  - exact Hacc.
  - simpl in Hm. destruct (Nat.eqb k k') eqn:E; [discriminate|].
    apply IH; [exact Hm|].
    rewrite map_at_assign_other; [exact Hacc | now apply Nat.eqb_neq].
Qed.

(** The loop that spreads the noise function of an observable over its link
    ends throws as soon as an observable of the time settings has no entry
    in the noise map. *)
Lemma spread_noise_missing (nf : stdmap NoiseFunction) (type : ObservableType)
    (inner : stdmap SettingsPointer) (ts : TimeSettingsMap) :
  forall acc : stdmap (stdmap NoiseFunction),
    In (type, inner) ts ->
    map_at nf type = None ->
    forEach ts
      (fun type inner fullNoiseFunctions =>
         match map_at nf type with
         | None => Throws MissingObservableNoiseError
         | Some EmptyNoiseFunction => Throws MissingObservableNoiseError
         | Some f =>
             Returns
               (forEachPure inner
                  (fun linkEnds _ fullNoiseFunctions =>
                     assign2 fullNoiseFunctions type linkEnds f)
                  fullNoiseFunctions)
         end)
      acc
    = Throws MissingObservableNoiseError.
Proof.
  induction ts as [|[k v] rest IH]; intros acc Hin Hnone; [destruct Hin|].
  cbn [forEach].
  destruct (map_at nf k) as [[|g|s size]|] eqn:E; cbn [bind]; try reflexivity.
  - apply IH; [|exact Hnone]. destruct Hin as [Heq|Hin]; [|exact Hin].
    injection Heq as -> _. congruence.
  - apply IH; [|exact Hnone]. destruct Hin as [Heq|Hin]; [|exact Hin].
    injection Heq as -> _. congruence.
Qed.

(** C8: when an observable of the time settings has no entry in the noise
    map, each of the two overloads that take one noise function per
    observable throws [MissingObservableNoiseError]; no observations are
    returned. *)
Theorem missing_observable_noise (getObservableSize : ObservableType -> Z)
    (ts : TimeSettingsMap) (sims : SimulatorMap)
    (type : ObservableType) (inner : stdmap SettingsPointer) :
  In (type, inner) ts ->
  (forall nf : stdmap NoiseFunction,
      map_at nf type = None ->
      simulateObservationsWithNoisePerObservable getObservableSize ts sims nf
      = Throws MissingObservableNoiseError) /\
  (forall nf : stdmap ScalarNoiseFunction,
      map_at nf type = None ->
      simulateObservationsWithNoiseScalarPerObservable getObservableSize ts sims nf
      = Throws MissingObservableNoiseError).
Proof.
  intro Hin.
  assert (Hvec : forall nf : stdmap NoiseFunction,
             map_at nf type = None ->
             simulateObservationsWithNoisePerObservable getObservableSize ts sims nf
             = Throws MissingObservableNoiseError).
  { intros nf Hnone. unfold simulateObservationsWithNoisePerObservable.
    now rewrite (spread_noise_missing nf type inner ts [] Hin Hnone). }
  split; [exact Hvec|].
  intros nf Hnone. unfold simulateObservationsWithNoiseScalarPerObservable.
  apply Hvec.
  apply (forEachPure_assign_None (boundNoise getObservableSize));
    [exact Hnone | reflexivity].
Qed.

Lemma missing_observable_noise_witness :
  simulateObservationsWithNoiseScalarPerObservable scenarioCatalog
    [(0, [(0, tabulated [1%float])]); (2, [])] [(0, doublingSimulator)]
    [(0, Some (fun _ => oneTenth)); (1, None)]
  = Throws MissingObservableNoiseError.
Proof.
  refine (proj2 (missing_observable_noise scenarioCatalog
                   [(0, [(0, tabulated [1%float])]); (2, [])]
                   [(0, doublingSimulator)] 2 [] _)
            [(0, Some (fun _ => oneTenth)); (1, None)] eq_refl).
  right. now left.
Defined.

(** * Zero noise *)

(** Adding positive zero changes no double but negative zero. *)
Lemma add_zero (x : double) : x <> (-0)%float -> (x + 0)%float = x.
Proof.
  intro H. apply Prim2SF_inj. rewrite add_spec.
  change (Prim2SF 0) with (S754_zero false).
  destruct (Prim2SF x) as [s| | |s m e] eqn:E; try reflexivity.
  destruct s; [|reflexivity].
  exfalso. apply H. apply Prim2SF_inj. rewrite E. reflexivity.
Qed.

Lemma addVectors_zero (a : Vector) :
  addVectors a (repeat 0%float (length a)) = map (fun x => (x + 0)%float) a.
Proof.
  unfold addVectors. induction a as [|x a IH]; simpl; [reflexivity|].
  now rewrite IH.
Qed.

Lemma splice_skipn {A : Type} (a b c : list A) (n : nat) :
  length a + length b = n -> skipn n (a ++ b ++ c) = c.
Proof.
  intro H. rewrite app_assoc, skipn_app.
  rewrite skipn_all2 by (rewrite length_app; lia).
  rewrite length_app. replace (n - (length a + length b)) with 0 by lia.
  reflexivity.
Qed.

Lemma splice_firstn {A : Type} (a b c : list A) (n : nat) :
  length a + length b = n -> firstn n (a ++ b ++ c) = a ++ b.
Proof.
  intro H. rewrite app_assoc, firstn_app.
  rewrite length_app. replace (n - (length a + length b)) with 0 by lia.
  simpl. rewrite app_nil_r. apply firstn_all2. rewrite length_app. lia.
Qed.

Lemma segmentAdd_in_range (v : Vector) (start size : nat) (w : Vector) :
  start + size <= length v ->
  length w = size ->
  segmentAdd v (Z.of_nat start) (Z.of_nat size) w
  = Returns (firstn start v ++ addVectors (segment v start size) w
             ++ skipn (start + size) v).
Proof.
  intros Hr Hw. unfold segmentAdd, rows.
  replace (0 <=? Z.of_nat start)%Z with true by (symmetry; apply Z.leb_le; lia).
  replace (0 <=? Z.of_nat size)%Z with true by (symmetry; apply Z.leb_le; lia).
  replace (Z.of_nat start + Z.of_nat size <=? Z.of_nat (length v))%Z with true
    by (symmetry; apply Z.leb_le; lia).
  replace (Z.of_nat (length w) =? Z.of_nat size)%Z with true
    by (symmetry; apply Z.eqb_eq; lia).
  simpl. now rewrite !Nat2Z.id.
Qed.

(** With zero noise of the size of the observable, on values that fill the
    blocks of all the samples, the loop adds zero to every value from block
    [i] on. *)
Lemma addNoiseLoop_zero (dn : nat) (f : NoiseFunction) (times : list TimeType) :
  isZeroNoise f (Z.of_nat dn) ->
  forall (i : nat) (v : Vector),
    length v = (i + length times) * dn ->
    addNoiseLoop (Z.of_nat dn) f times i v
    = Returns (firstn (i * dn) v ++ map (fun x => (x + 0)%float) (skipn (i * dn) v)).
Proof.
  intro Hzero. unfold isZeroNoise in Hzero. rewrite Nat2Z.id in Hzero.
  induction times as [|t rest IH]; intros i v Hlen; cbn [addNoiseLoop].
  - simpl in Hlen. rewrite Nat.add_0_r in Hlen.
    rewrite skipn_all2 by lia. simpl. rewrite app_nil_r.
    now rewrite firstn_all2 by lia.
  - rewrite Hzero. cbn [bind]. unfold rows at 1. rewrite repeat_length.
    rewrite Z.eqb_refl. cbn [negb].
    replace (if Nat.eqb i 0 then Returns tt else Returns tt)
      with (@Returns unit tt) by (destruct (Nat.eqb i 0); reflexivity).
    cbn [bind]. simpl in Hlen.
    rewrite <- Nat2Z.inj_mul.
    rewrite segmentAdd_in_range; [| nia | apply repeat_length].
    cbn [bind].
    assert (Hseg : length (segment v (i * dn) dn) = dn)
      by (apply segment_length; nia).
    assert (Hadd : addVectors (segment v (i * dn) dn) (repeat 0%float dn)
                   = map (fun x => (x + 0)%float) (segment v (i * dn) dn)).
    { pose proof (addVectors_zero (segment v (i * dn) dn)) as Hz.
      now rewrite Hseg in Hz. }
    rewrite Hadd.
    assert (Hpre : length (firstn (i * dn) v) = i * dn)
      by (rewrite length_firstn; nia).
    assert (Hmid : length (map (fun x => (x + 0)%float) (segment v (i * dn) dn)) = dn)
      by now rewrite length_map.
    rewrite IH.
    + rewrite splice_firstn
        by (rewrite length_firstn, length_map, segment_length; simpl; nia).
      rewrite splice_skipn
        by (rewrite length_firstn, length_map, segment_length; simpl; nia).
      rewrite <- app_assoc. f_equal. rewrite <- map_app. f_equal.
      unfold segment.
      f_equal.
      replace (skipn (i * dn + dn) v) with (skipn dn (skipn (i * dn) v))
        by (rewrite skipn_skipn; f_equal; lia).
      apply firstn_skipn.
    + rewrite !length_app, length_firstn, length_map, segment_length, length_skipn
        by nia.
      simpl. nia.
Qed.

Lemma addNoiseToSet_zero (getObservableSize : ObservableType -> Z)
    (nf : stdmap (stdmap NoiseFunction)) (type : ObservableType)
    (linkEnds : LinkEnds) (set : ObservationSet) (f : NoiseFunction) (dn : nat) :
  getObservableSize type = Z.of_nat dn ->
  0 < dn ->
  length (fst set) = length (fst (snd set)) * dn ->
  map_at2 nf type linkEnds = Some f ->
  isZeroNoise f (getObservableSize type) ->
  addNoiseToSet getObservableSize nf type linkEnds set
  = Returns (map (fun x => (x + 0)%float) (fst set), snd set).
Proof.
  intros Hd Hpos Hlen Hf Hzero. unfold addNoiseToSet. cbv zeta.
  rewrite Hd in *.
  replace (Z.of_nat dn =? 0)%Z with false by (symmetry; apply Z.eqb_neq; lia).
  unfold rows. rewrite Hlen, Nat2Z.inj_mul, Z.quot_mul by lia.
  rewrite Z.eqb_refl. cbn [negb]. rewrite Hf.
  rewrite (addNoiseLoop_zero dn f _ Hzero 0 (fst set)) by (simpl; exact Hlen).
  reflexivity.
Qed.

Lemma flat_map_length_const {A B : Type} (g : A -> list B) (n : nat) (l : list A) :
  (forall a, length (g a) = n) -> length (flat_map g l) = length l * n.
Proof.
  intro H. induction l as [|a l IH]; simpl; [reflexivity|].
  now rewrite length_app, H, IH.
Qed.

(** A set that the aggregating simulator returns holds, for every time, as
    many values as the simulator reports, which is 1, 2 or 3. *)
Lemma simulatePair_rows (sims : SimulatorMap) (type : ObservableType)
    (linkEnds : LinkEnds) (settings : SettingsPointer) (set : ObservationSet) :
  simulatePair sims type linkEnds settings = Returns set ->
  exists simulator size,
    map_at sims type = Some simulator /\
    getObservationSize simulator linkEnds = Z.of_nat size /\
    0 < size /\
    length (fst set) = length (fst (snd set)) * size.
Proof.
  unfold simulatePair. destruct (map_at sims type) as [sim|]; [|discriminate].
  cbv zeta. intro H.
  assert (Hwidth : forall size,
             simulateWithSize size sim settings linkEnds = Returns set ->
             length (fst set) = length (fst (snd set)) * size).
  { intros size. unfold simulateWithSize.
    destruct (dynamic_pointer_cast (Z.of_nat size) sim) as [derived|];
      [|discriminate].
    unfold simulateSingleObservationSetFromSimulator.
    destruct (getObservationModel derived linkEnds) as [model|e]; cbn [bind];
      [|discriminate].
    unfold simulateSingleObservationSet.
    destruct settings as [[r|r times]|].
    - intro Hs. injection Hs as <-. reflexivity.
    - unfold simulateObservationsWithCheckAndLinkEndIdOutput.
      intro Hs. injection Hs as <-. simpl.
      apply flat_map_length_const. intro t. now rewrite length_map, length_seq.
    - intro Hs. injection Hs as <-. reflexivity. }
  destruct (Z.eqb (getObservationSize sim linkEnds) 1) eqn:E1.
  { apply Z.eqb_eq in E1. exists sim, 1. repeat split; auto. }
  destruct (Z.eqb (getObservationSize sim linkEnds) 2) eqn:E2.
  { apply Z.eqb_eq in E2. exists sim, 2. repeat split; auto. }
  destruct (Z.eqb (getObservationSize sim linkEnds) 3) eqn:E3.
  { apply Z.eqb_eq in E3. exists sim, 3. repeat split; auto. }
  discriminate.
Qed.

Lemma traverse_In_result {V W : Type} (g : nat -> V -> outcome W) (m : stdmap V)
    (xs : stdmap W) (k : nat) (x : W) :
  traverse g m = Returns xs -> In (k, x) xs ->
  exists v, In (k, v) m /\ g k v = Returns x.
Proof.
  intro H. apply traverse_Forall2 in H.
  induction H as [|[k1 v1] [k2 x2] m xs [Hk Hg] _ IH]; intro Hin; [destruct Hin|].
  simpl in Hk, Hg. subst k2. destruct Hin as [Heq|Hin].
  - injection Heq as -> ->. exists v1. split; [now left | exact Hg].
  - destruct (IH Hin) as (v & Hv & Hgv). exists v. split; [now right | exact Hgv].
Qed.

Lemma traverse_mapValues {V W : Type} (g : nat -> V -> outcome W)
    (h : nat -> V -> W) (m : stdmap V) :
  (forall k v, In (k, v) m -> g k v = Returns (h k v)) ->
  traverse g m = Returns (mapValues h m).
Proof.
  induction m as [|[k v] rest IH]; intro H; simpl; [reflexivity|].
  rewrite (H k v) by now left. cbn [bind].
  rewrite IH by (intros k' v' Hin; apply H; now right).
  reflexivity.
Qed.

Lemma agreesWithCatalog_In (getObservableSize : ObservableType -> Z)
    (ts : TimeSettingsMap) (sims : SimulatorMap) (type : ObservableType)
    (inner : stdmap SettingsPointer) (linkEnds : LinkEnds)
    (settings : SettingsPointer) (simulator : ObservationSimulator) :
  agreesWithCatalog getObservableSize ts sims = true ->
  In (type, inner) ts -> In (linkEnds, settings) inner ->
  map_at sims type = Some simulator ->
  getObservationSize simulator linkEnds = getObservableSize type.
Proof.
  unfold agreesWithCatalog. intros H Hin1 Hin2 Hsim.
  rewrite forallb_forall in H. specialize (H _ Hin1). simpl in H.
  rewrite Hsim in H. rewrite forallb_forall in H. specialize (H _ Hin2).
  simpl in H. now apply Z.eqb_eq.
Qed.

(** The noisy simulation with zero noise adds zero to every noise-free
    value. *)
Lemma simulateObservationsWithNoise_zero
    (getObservableSize : ObservableType -> Z) (ts : TimeSettingsMap)
    (sims : SimulatorMap) (nf : stdmap (stdmap NoiseFunction))
    (noiseFree : ObservationsMap) :
  wellFormed2 ts = true ->
  agreesWithCatalog getObservableSize ts sims = true ->
  simulateObservations ts sims = Returns noiseFree ->
  zeroNoiseFor getObservableSize ts nf ->
  simulateObservationsWithNoise getObservableSize ts sims nf
  = Returns (plusZero noiseFree).
Proof.
  intros Hwf Hagree Hfree Hnoise.
  unfold simulateObservationsWithNoise. rewrite Hfree. cbn [bind].
  rewrite addNoise_traverse
    by exact (proj1 (simulateObservations_shape ts sims _ Hwf Hfree)).
  rewrite (simulateObservations_wellFormed ts sims Hwf) in Hfree.
  destruct (traverse2 (simulatePair sims) ts) as [xss|e] eqn:T; [|discriminate].
  cbn [bind] in Hfree. injection Hfree as <-.
  unfold traverse2, plusZero.
  apply traverse_mapValues. intros type inner' Hin1.
  apply traverse_mapValues. intros linkEnds set Hin2.
  apply filter_In in Hin1 as [Hin1 _].
  destruct (traverse_In_result _ ts xss type inner' T Hin1)
    as (inner & Hinner & Tinner).
  destruct (traverse_In_result _ inner inner' linkEnds set Tinner Hin2)
    as (settings & Hsettings & Hpair).
  destruct (simulatePair_rows sims type linkEnds settings set Hpair)
    as (sim & size & Hsim & Hsize & Hpos & Hlen).
  pose proof (agreesWithCatalog_In getObservableSize ts sims type inner linkEnds
                settings sim Hagree Hinner Hsettings Hsim) as Hcat.
  destruct (Hnoise type inner linkEnds settings Hinner Hsettings) as (f & Hf & Hzero).
  apply (addNoiseToSet_zero getObservableSize nf type linkEnds set f size).
  - now rewrite <- Hcat.
  - exact Hpos.
  - exact Hlen.
  - exact Hf.
  - apply Hzero. rewrite <- Hcat, Hsize. lia.
Qed.

(** Zero added to a map without negative zero leaves the map as it is. *)
Lemma mapValues_identity {V : Type} (h : nat -> V -> V) (m : stdmap V) :
  (forall k v, In (k, v) m -> h k v = v) -> mapValues h m = m.
Proof.
  induction m as [|[k v] rest IH]; intro H; simpl; [reflexivity|].
  rewrite (H k v) by now left.
  f_equal. apply IH. intros k' v' Hin. apply H. now right.
Qed.

Lemma plusZero_identity (observations : ObservationsMap) :
  ~ holdsNegativeZero observations -> plusZero observations = observations.
Proof.
  intro Hneg. unfold plusZero.
  apply mapValues_identity. intros type inner Hin1.
  apply mapValues_identity. intros linkEnds [v tl] Hin2. simpl. f_equal.
  rewrite <- (map_id v) at 2. apply map_ext_in. intros x Hx.
  apply add_zero. intros ->. apply Hneg.
  exists type, inner, linkEnds, (v, tl). auto.
Qed.

(** ** Lookups in well-formed maps *)

Lemma In_map_at {V : Type} (m : stdmap V) (k : nat) (v : V) :
  wellFormed m = true -> In (k, v) m -> map_at m k = Some v.
Proof.
  unfold wellFormed. induction m as [|[k' v'] rest IH]; intros Hwf Hin;
    [destruct Hin|].
  simpl in Hwf. apply andb_true_iff in Hwf as [Hb Hr]. simpl.
  destruct Hin as [Heq|Hin].
  - injection Heq as -> ->. now rewrite Nat.eqb_refl.
  - destruct (Nat.eqb k k') eqn:E; [|now apply IH].
    apply Nat.eqb_eq in E. subst k'. exfalso.
    assert (Hlt : k < k).
    { apply (proj1 (belowAll_spec k (keys rest)) Hb).
      unfold keys. change k with (fst (k, v)). now apply in_map. }
    lia.
Qed.

Lemma map_at_mapValues {V W : Type} (h : nat -> V -> W) (m : stdmap V) (k : nat) :
  map_at (mapValues h m) k = option_map (h k) (map_at m k).
Proof.
  induction m as [|[k' v] rest IH]; simpl; [reflexivity|].
  destruct (Nat.eqb k k') eqn:E; [|exact IH].
  apply Nat.eqb_eq in E. now subst k'.
Qed.

Lemma map_at_In {V : Type} (m : stdmap V) (k : nat) (v : V) :
  map_at m k = Some v -> In (k, v) m.
Proof.
  induction m as [|[k' v'] rest IH]; simpl; [discriminate|].
  destruct (Nat.eqb k k') eqn:E.
  - apply Nat.eqb_eq in E. subst k'. intro H. injection H as ->. now left.
  - intro H. right. now apply IH.
Qed.

Lemma In_mapValues {V W : Type} (h : nat -> V -> W) (m : stdmap V) (k : nat) (v : V) :
  In (k, v) m -> In (k, h k v) (mapValues h m).
Proof.
  intro H. unfold mapValues.
  change (k, h k v) with ((fun e => (fst e, h (fst e) (snd e))) (k, v)).
  now apply in_map.
Qed.

Lemma In_dropEmpty {V : Type} (m : stdmap (stdmap V)) (k1 k2 : nat)
    (inner : stdmap V) (v : V) :
  In (k1, inner) m -> In (k2, v) inner -> In (k1, inner) (dropEmpty m).
Proof.
  intros H1 H2. unfold dropEmpty. apply filter_In. split; [exact H1|].
  simpl. destruct inner; [destruct H2 | reflexivity].
Qed.

Lemma In_map_at2 {V : Type} (m : stdmap (stdmap V)) (k1 k2 : nat)
    (inner : stdmap V) (v : V) :
  wellFormed2 m = true ->
  In (k1, inner) m -> In (k2, v) inner -> map_at2 m k1 k2 = Some v.
Proof.
  unfold wellFormed2. intros Hwf H1 H2.
  apply andb_true_iff in Hwf as [Hk Hin].
  unfold map_at2. rewrite (In_map_at m k1 inner Hk H1).
  apply In_map_at; [|exact H2].
  rewrite forallb_forall in Hin. exact (Hin _ H1).
Qed.

Lemma mapValues2_wellFormed2 {V W : Type} (h : nat -> nat -> V -> W)
    (m : stdmap (stdmap V)) :
  wellFormed2 (mapValues (fun k1 inner => mapValues (h k1) inner) m)
  = wellFormed2 m.
Proof.
  unfold wellFormed2, wellFormed. rewrite mapValues_keys. f_equal.
  induction m as [|[k inner] rest IH]; simpl; [reflexivity|].
  rewrite IH. now rewrite (mapValues_keys _ inner).
Qed.

(** A map filled from a well-formed two-level map holds every entry of it. *)
Lemma fill2_mapValues_at2 {V W : Type} (h : nat -> nat -> V -> W)
    (m : stdmap (stdmap V)) (k1 k2 : nat) (inner : stdmap V) (v : V) :
  wellFormed2 m = true ->
  In (k1, inner) m -> In (k2, v) inner ->
  map_at2 (fill2 (mapValues (fun k1 inner => mapValues (h k1) inner) m) []) k1 k2
  = Some (h k1 k2 v).
Proof.
  intros Hwf H1 H2.
  assert (Hx : wellFormed2 (mapValues (fun k1 inner => mapValues (h k1) inner) m)
               = true)
    by now rewrite mapValues2_wellFormed2.
  rewrite (fill2_spec _ []).
  - apply (In_map_at2 _ k1 k2 (mapValues (h k1) inner)).
    + now apply dropEmpty_wellFormed2.
    + apply (In_dropEmpty _ k1 k2 _ (h k1 k2 v)).
      * exact (In_mapValues (fun k1 inner => mapValues (h k1) inner) m k1 inner H1).
      * now apply In_mapValues.
    + now apply In_mapValues.
  - unfold wellFormed2 in Hx. now apply andb_true_iff in Hx as [Hk _].
  - unfold wellFormed2 in Hx. now apply andb_true_iff in Hx as [_ Hin].
Qed.

Lemma map_const_seq {A : Type} (x : A) (n : nat) :
  forall a, map (fun _ => x) (seq a n) = repeat x n.
Proof.
  induction n as [|n IH]; intro a; simpl; [reflexivity|]. now rewrite IH.
Qed.

Lemma isZeroNoise_bound (size : Z) :
  (0 <= size)%Z -> isZeroNoise (BoundScalarNoiseFunction zeroScalar size) size.
Proof.
  intros Hsize t. simpl. unfold getIdenticallyAndIndependentlyDistributedNoise.
  replace (size <? 0)%Z with false by (symmetry; apply Z.ltb_ge; lia).
  destruct (Z.to_nat size) as [|n]; [reflexivity|].
  unfold zeroScalar. now rewrite map_const_seq.
Qed.

Lemma forEach_pure {V S : Type} (body : nat -> V -> S -> outcome S)
    (body' : nat -> V -> S -> S) (m : stdmap V) :
  (forall k v s, In (k, v) m -> body k v s = Returns (body' k v s)) ->
  forall s, forEach m body s = Returns (forEachPure m body' s).
Proof.
  induction m as [|[k v] rest IH]; intros H s; simpl; [reflexivity|].
  rewrite (H k v s) by now left. cbn [bind].
  apply IH. intros k' v' s' Hin. apply H. now right.
Qed.

(** ** The four entry points with zero noise *)

Section ZeroNoise.

Variable getObservableSize : ObservableType -> Z.
Variable ts : TimeSettingsMap.
Variable sims : SimulatorMap.
Variable noiseFree : ObservationsMap.

Hypothesis ts_wellFormed : wellFormed2 ts = true.
Hypothesis sizes_agree : agreesWithCatalog getObservableSize ts sims = true.
Hypothesis noiseFree_returned : simulateObservations ts sims = Returns noiseFree.

Lemma scalarPerLinkEnds_zero (nf : stdmap (stdmap ScalarNoiseFunction)) :
  wellFormed2 nf = true ->
  (forall type inner linkEnds settings,
      In (type, inner) ts -> In (linkEnds, settings) inner ->
      map_at2 nf type linkEnds = Some zeroScalar) ->
  simulateObservationsWithNoiseScalarPerLinkEnds getObservableSize ts sims nf
  = Returns (plusZero noiseFree).
Proof.
  intros Hwf Hzero. unfold simulateObservationsWithNoiseScalarPerLinkEnds. cbv zeta.
  assert (Hfill :
            forEachPure nf
              (fun type inner noiseVectorFunctions =>
                 forEachPure inner
                   (fun linkEnds f noiseVectorFunctions =>
                      assign2 noiseVectorFunctions type linkEnds
                        (boundNoise getObservableSize type f))
                   noiseVectorFunctions)
              []
            = fill2 (mapValues
                       (fun type inner =>
                          mapValues (fun _ f => boundNoise getObservableSize type f)
                            inner)
                       nf) []).
  { unfold fill2.
    rewrite <- (forEachPure_mapValues
                  (fun type inner =>
                     mapValues (fun _ f => boundNoise getObservableSize type f) inner)
                  (fun k1 xs acc =>
                     forEachPure xs (fun k2 x acc => assign2 acc k1 k2 x) acc)).
    apply forEachPure_ext. intros type inner acc.
    apply (forEachPure_mapValues
             (fun _ f => boundNoise getObservableSize type f)
             (fun k2 x acc => assign2 acc type k2 x)). }
  rewrite Hfill.
  apply simulateObservationsWithNoise_zero; try assumption.
  intros type inner linkEnds settings Hin1 Hin2.
  specialize (Hzero type inner linkEnds settings Hin1 Hin2).
  unfold map_at2 in Hzero.
  destruct (map_at nf type) as [sinner|] eqn:E; [|discriminate].
  exists (boundNoise getObservableSize type zeroScalar). split.
  - apply (fill2_mapValues_at2
             (fun type _ f => boundNoise getObservableSize type f)
             nf type linkEnds sinner zeroScalar Hwf);
      now apply map_at_In.
  - intro Hpos. apply isZeroNoise_bound. lia.
Qed.

Lemma perObservable_zero (nf : stdmap NoiseFunction) :
  (forall type inner,
      In (type, inner) ts ->
      exists f,
        map_at nf type = Some f /\ f <> EmptyNoiseFunction /\
        ((0 < getObservableSize type)%Z -> isZeroNoise f (getObservableSize type))) ->
  simulateObservationsWithNoisePerObservable getObservableSize ts sims nf
  = Returns (plusZero noiseFree).
Proof.
  intro Hzero. unfold simulateObservationsWithNoisePerObservable.
  set (F := fun type => match map_at nf type with
                        | Some f => f
                        | None => EmptyNoiseFunction
                        end).
  rewrite (forEach_pure _
             (fun type (inner : stdmap SettingsPointer) full =>
                forEachPure inner
                  (fun linkEnds _ full => assign2 full type linkEnds (F type))
                  full)).
  2: { intros type inner full Hin.
       destruct (Hzero type inner Hin) as (f & Hf & Hne & _).
       unfold F. rewrite Hf. destruct f; [contradiction | reflexivity | reflexivity]. }
  cbn [bind].
  assert (Hfill :
            forEachPure ts
              (fun type (inner : stdmap SettingsPointer) full =>
                 forEachPure inner
                   (fun linkEnds _ full => assign2 full type linkEnds (F type))
                   full)
              []
            = fill2 (mapValues
                       (fun type (inner : stdmap SettingsPointer) =>
                          mapValues (fun _ _ => F type) inner)
                       ts) []).
  { unfold fill2.
    rewrite <- (forEachPure_mapValues
                  (fun type (inner : stdmap SettingsPointer) =>
                     mapValues (fun _ _ => F type) inner)
                  (fun k1 xs acc =>
                     forEachPure xs (fun k2 x acc => assign2 acc k1 k2 x) acc)).
    apply forEachPure_ext. intros type inner acc.
    apply (forEachPure_mapValues
             (fun _ (_ : SettingsPointer) => F type)
             (fun k2 x acc => assign2 acc type k2 x)). }
  rewrite Hfill.
  apply simulateObservationsWithNoise_zero; try assumption.
  intros type inner linkEnds settings Hin1 Hin2.
  destruct (Hzero type inner Hin1) as (f & Hf & _ & Hz).
  exists f. split; [|exact Hz].
  rewrite (fill2_mapValues_at2 (fun type _ (_ : SettingsPointer) => F type)
             ts type linkEnds inner settings ts_wellFormed Hin1 Hin2).
  unfold F. now rewrite Hf.
Qed.

Lemma scalarPerObservable_zero (nf : stdmap ScalarNoiseFunction) :
  wellFormed nf = true ->
  (forall type inner, In (type, inner) ts -> map_at nf type = Some zeroScalar) ->
  simulateObservationsWithNoiseScalarPerObservable getObservableSize ts sims nf
  = Returns (plusZero noiseFree).
Proof.
  intros Hwf Hzero. unfold simulateObservationsWithNoiseScalarPerObservable. cbv zeta.
  rewrite (forEachPure_mapValues (boundNoise getObservableSize)
             (fun k x acc => assign acc k x) nf []).
  rewrite (fill_flat _ [])
    by (simpl; rewrite mapValues_keys; exact Hwf).
  simpl. apply perObservable_zero. intros type inner Hin.
  exists (boundNoise getObservableSize type zeroScalar).
  split; [|split].
  - rewrite map_at_mapValues, (Hzero type inner Hin). reflexivity.
  - discriminate.
  - intro Hpos. apply isZeroNoise_bound. lia.
Qed.

Lemma scalar_zero :
  simulateObservationsWithNoiseScalar getObservableSize ts sims zeroScalar
  = Returns (plusZero noiseFree).
Proof.
  unfold simulateObservationsWithNoiseScalar. cbv zeta.
  assert (Hk : wellFormed ts = true).
  { unfold wellFormed2 in ts_wellFormed.
    now apply andb_true_iff in ts_wellFormed as [Hk _]. }
  rewrite (forEachPure_mapValues
             (fun _ (_ : stdmap SettingsPointer) => zeroScalar)
             (fun k x acc => assign acc k x) ts []).
  rewrite (fill_flat _ [])
    by (simpl; rewrite mapValues_keys; exact Hk).
  simpl. apply scalarPerObservable_zero.
  - unfold wellFormed. rewrite mapValues_keys. exact Hk.
  - intros type inner Hin.
    rewrite map_at_mapValues, (In_map_at ts type inner Hk Hin). reflexivity.
Qed.

End ZeroNoise.

(** C2, as stated, fails in two ways.  A noise-free value of negative zero
    comes back as positive zero from the entry point that takes a single
    scalar function, here the zero function; and when the simulator of an
    observable reports another size than the catalog, the noise-free
    simulation returns while the simulation with zero noise throws. *)
Lemma zero_noise_is_not_identity :
  (agreesWithCatalog scenarioCatalog [(0, [(0, tabulated [0%float])])]
     [(0, negativeZeroSimulator)] = true /\
   simulateObservations [(0, [(0, tabulated [0%float])])] [(0, negativeZeroSimulator)]
   = Returns [(0, [(0, ([(-0)%float], ([0%float], 1%Z)))])] /\
   simulateObservationsWithNoiseScalar scenarioCatalog
     [(0, [(0, tabulated [0%float])])] [(0, negativeZeroSimulator)] zeroScalar
   = Returns [(0, [(0, ([0%float], ([0%float], 1%Z)))])] /\
   [(0, [(0, ([0%float], ([0%float], 1%Z)))])]
   <> [(0, [(0, ([(-0)%float], ([0%float], 1%Z)))])]) /\
  (simulateObservations [(0, [(0, tabulated [10%float])])] [(0, rampSimulator 3)]
   = Returns [(0, [(0, ([10; 11; 12]%float, ([10%float], 1%Z)))])] /\
   simulateObservationsWithNoiseScalar scenarioCatalog
     [(0, [(0, tabulated [10%float])])] [(0, rampSimulator 3)] zeroScalar
   = Throws InconsistentSampleCountError).
Proof.
  split; [|split; vm_compute; reflexivity].
  split; [reflexivity|]. split; [vm_compute; reflexivity|].
  split; [vm_compute; reflexivity|].
  intro H.
  apply (f_equal
           (fun m : ObservationsMap =>
              match m with
              | [(_, [(_, ([x], _))])] => PrimFloat.ltb (1 / x) 0
              | _ => false
              end)) in H.
  vm_compute in H. discriminate H.
Qed.

(** C2, amended: on well-formed time settings whose simulators report the
    sizes of the catalog and on which the noise-free simulation returns,
    zero noise supplied through any of the four entry points (for every pair
    of the time settings, where the entry point takes a map) returns the
    noise-free observations with zero added to every value; this is the
    noise-free result itself unless it holds a negative zero. *)
Theorem zero_noise_entry_points (getObservableSize : ObservableType -> Z)
    (ts : TimeSettingsMap) (sims : SimulatorMap) (noiseFree : ObservationsMap) :
  wellFormed2 ts = true ->
  agreesWithCatalog getObservableSize ts sims = true ->
  simulateObservations ts sims = Returns noiseFree ->
  (forall nf,
      zeroNoiseFor getObservableSize ts nf ->
      simulateObservationsWithNoise getObservableSize ts sims nf
      = Returns (plusZero noiseFree)) /\
  (forall nf,
      wellFormed nf = true ->
      (forall type inner, In (type, inner) ts -> map_at nf type = Some zeroScalar) ->
      simulateObservationsWithNoiseScalarPerObservable getObservableSize ts sims nf
      = Returns (plusZero noiseFree)) /\
  (forall nf,
      wellFormed2 nf = true ->
      (forall type inner linkEnds settings,
          In (type, inner) ts -> In (linkEnds, settings) inner ->
          map_at2 nf type linkEnds = Some zeroScalar) ->
      simulateObservationsWithNoiseScalarPerLinkEnds getObservableSize ts sims nf
      = Returns (plusZero noiseFree)) /\
  simulateObservationsWithNoiseScalar getObservableSize ts sims zeroScalar
  = Returns (plusZero noiseFree) /\
  (~ holdsNegativeZero noiseFree -> plusZero noiseFree = noiseFree).
Proof.
  intros Hwf Hagree Hfree.
  split; [|split; [|split; [|split]]].
  - intros nf Hzero. now apply simulateObservationsWithNoise_zero.
  - intros nf Hnf Hzero. now apply scalarPerObservable_zero.
  - intros nf Hnf Hzero. now apply scalarPerLinkEnds_zero.
  - now apply scalar_zero.
  - apply plusZero_identity.
Qed.

Lemma zero_noise_entry_points_witness :
  wellFormed2 scenarioSettings = true /\
  agreesWithCatalog scenarioCatalog scenarioSettings scenarioSimulators = true /\
  simulateObservations scenarioSettings scenarioSimulators
  = Returns [(0, [(0, ([0; 2; 4]%float, ([0; 1; 2]%float, 1%Z)))])] /\
  simulateObservationsWithNoiseScalar scenarioCatalog scenarioSettings
    scenarioSimulators zeroScalar
  = Returns (plusZero [(0, [(0, ([0; 2; 4]%float, ([0; 1; 2]%float, 1%Z)))])]).
Proof.
  split; [reflexivity|]. split; [reflexivity|]. split; [reflexivity|].
  exact (proj1 (proj2 (proj2 (proj2
           (zero_noise_entry_points scenarioCatalog scenarioSettings
              scenarioSimulators
              [(0, [(0, ([0; 2; 4]%float, ([0; 1; 2]%float, 1%Z)))])]
              eq_refl eq_refl eq_refl))))).
Defined.

(** * Further properties of the aggregating simulator *)

Lemma keys_dropEmpty_subset {V : Type} (m : stdmap (stdmap V)) (k : nat) :
  In k (keys (dropEmpty m)) -> In k (keys m).
Proof.
  unfold keys, dropEmpty. intro H. apply in_map_iff in H as (e & <- & He).
  apply filter_In in He as [He _]. now apply in_map.
Qed.

Lemma map_at2_dropEmpty {V : Type} (m : stdmap (stdmap V)) (k1 k2 : nat) :
  wellFormed m = true ->
  map_at2 (dropEmpty m) k1 k2 = map_at2 m k1 k2.
Proof.
  unfold wellFormed, map_at2.
  induction m as [|[k inner] rest IH]; intro Hwf; [reflexivity|].
  simpl in Hwf. apply andb_true_iff in Hwf as [Hb Hr].
  destruct inner as [|e inner']; simpl.
  - destruct (Nat.eqb k1 k) eqn:E; [|now apply IH].
    apply Nat.eqb_eq in E. subst k1.
    assert (Hnone : map_at (dropEmpty rest) k = None).
    { apply map_at_None. intro Hin. apply keys_dropEmpty_subset in Hin.
      pose proof (proj1 (belowAll_spec k (keys rest)) Hb k Hin). lia. }
    now rewrite Hnone.
  - destruct (Nat.eqb k1 k); [reflexivity | now apply IH].
Qed.

Lemma traverse2_dropEmpty_keys {V W : Type} (g : nat -> nat -> V -> outcome W)
    (m : stdmap (stdmap V)) (xss : stdmap (stdmap W)) :
  traverse2 g m = Returns xss -> keys (dropEmpty xss) = keys (dropEmpty m).
Proof.
  unfold traverse2. intro H. apply traverse_Forall2 in H.
  induction H as [|[k inner] [k' xs] m xss [Hk Hg] _ IH]; [reflexivity|].
  simpl in Hk, Hg. subst k'. apply traverse_keys in Hg.
  destruct inner as [|e inner']; destruct xs as [|x xs']; simpl;
    try discriminate Hg; [exact IH | now rewrite IH].
Qed.

(** X3: on well-formed time settings, the observations returned for a pair
    of keys are what the single pair gives, and nothing is returned for
    keys that the time settings do not have. *)
Theorem simulateObservations_at2 (ts : TimeSettingsMap) (sims : SimulatorMap)
    (out : ObservationsMap) :
  wellFormed2 ts = true ->
  simulateObservations ts sims = Returns out ->
  forall type linkEnds,
    match map_at2 ts type linkEnds with
    | Some settings =>
        exists set,
          simulatePair sims type linkEnds settings = Returns set /\
          map_at2 out type linkEnds = Some set
    | None => map_at2 out type linkEnds = None
    end.
Proof.
  intros Hwf H type linkEnds.
  rewrite (simulateObservations_wellFormed ts sims Hwf) in H.
  destruct (traverse2 (simulatePair sims) ts) as [xss|e] eqn:T; [|discriminate].
  cbn [bind] in H. injection H as <-.
  assert (Hx : wellFormed xss = true).
  { pose proof (traverse2_wellFormed2 _ _ _ T) as Hx. rewrite Hwf in Hx.
    unfold wellFormed2 in Hx. now apply andb_true_iff in Hx as [Hx _]. }
  rewrite (map_at2_dropEmpty xss type linkEnds Hx).
  exact (traverse2_at2 _ ts xss type linkEnds T).
Qed.

Lemma simulateObservations_at2_witness :
  exists set,
    simulatePair scenarioSimulators 0 0 (tabulated [0; 1; 2]%float) = Returns set /\
    map_at2 [(0, [(0, ([0; 2; 4]%float, ([0; 1; 2]%float, 1%Z)))])] 0 0 = Some set.
Proof.
  exact (simulateObservations_at2 scenarioSettings scenarioSimulators
           [(0, [(0, ([0; 2; 4]%float, ([0; 1; 2]%float, 1%Z)))])]
           eq_refl eq_refl 0 0).
Defined.

(** X4: on well-formed time settings, the returned map is well formed, its
    observables are those of the time settings that have link ends, in the
    same order, and none of its inner maps is empty. *)
Theorem simulateObservations_drops_empty (ts : TimeSettingsMap)
    (sims : SimulatorMap) (out : ObservationsMap) :
  wellFormed2 ts = true ->
  simulateObservations ts sims = Returns out ->
  wellFormed2 out = true /\
  keys out = keys (dropEmpty ts) /\
  (forall type inner, In (type, inner) out -> inner <> []).
Proof.
  intros Hwf H. split; [exact (proj1 (simulateObservations_shape ts sims out Hwf H))|].
  rewrite (simulateObservations_wellFormed ts sims Hwf) in H.
  destruct (traverse2 (simulatePair sims) ts) as [xss|e] eqn:T; [|discriminate].
  cbn [bind] in H. injection H as <-. split.
  - exact (traverse2_dropEmpty_keys _ _ _ T).
  - intros type inner Hin. apply filter_In in Hin as [_ Hne]. simpl in Hne.
    destruct inner; [discriminate Hne | discriminate].
Qed.

Lemma simulateObservations_drops_empty_witness :
  keys [(1, [(2, ([1%float; 2%float], ([1%float], 1%Z)))])]
  = keys (dropEmpty [(0, []); (1, [(2, tabulated [1%float])]); (7, [])]).
Proof.
  exact (proj1 (proj2 (simulateObservations_drops_empty
                         [(0, []); (1, [(2, tabulated [1%float])]); (7, [])]
                         [(1, rampSimulator 2)]
                         [(1, [(2, ([1%float; 2%float], ([1%float], 1%Z)))])]
                         eq_refl eq_refl))).
Defined.

(** X5: on a well-formed table, the settings created for a pair of keys are
    the tabulated settings with the times and the link end of the table
    entry, and no settings are created for other keys. *)
Theorem createObservationSimulationTimeSettingsMap_at2 (table : TimeTable) :
  wellFormed2 table = true ->
  forall type linkEnds,
    map_at2 (createObservationSimulationTimeSettingsMap table) type linkEnds
    = option_map
        (fun entry =>
           Some (TabulatedObservationSimulationTimeSettings (snd entry) (fst entry)))
        (map_at2 table type linkEnds).
Proof.
  intros Hwf type linkEnds.
  rewrite (createObservationSimulationTimeSettingsMap_wellFormed table Hwf).
  assert (Ht : wellFormed (tabulatedSettings table) = true).
  { pose proof (tabulatedSettings_wellFormed2 table) as Ht. rewrite Hwf in Ht.
    unfold wellFormed2 in Ht. now apply andb_true_iff in Ht as [Ht _]. }
  rewrite (map_at2_dropEmpty _ type linkEnds Ht).
  unfold map_at2, tabulatedSettings. rewrite map_at_mapValues.
  destruct (map_at table type) as [inner|]; simpl; [|reflexivity].
  apply map_at_mapValues.
Qed.

Lemma createObservationSimulationTimeSettingsMap_at2_witness :
  map_at2
    (createObservationSimulationTimeSettingsMap
       [(2, [(0, ([1%float; 2%float], 1%Z)); (5, ([], 2%Z))]); (4, [])]) 2 5
  = Some (Some (TabulatedObservationSimulationTimeSettings 2%Z [])).
Proof.
  exact (createObservationSimulationTimeSettingsMap_at2
           [(2, [(0, ([1%float; 2%float], 1%Z)); (5, ([], 2%Z))]); (4, [])]
           eq_refl 2 5).
Defined.

(** The exception of a pair aborts the whole call, and is the exception of
    the call when the pairs before it return. *)
Lemma simulateObservations_pair_throws (ts : TimeSettingsMap) (sims : SimulatorMap)
    (type : ObservableType) (inner : stdmap SettingsPointer)
    (linkEnds : LinkEnds) (settings : SettingsPointer) (e : Exception) :
  In (type, inner) ts ->
  In (linkEnds, settings) inner ->
  simulatePair sims type linkEnds settings = Throws e ->
  (exists e', simulateObservations ts sims = Throws e') /\
  (forall pre post ipre ipost,
      ts = pre ++ (type, ipre ++ (linkEnds, settings) :: ipost) :: post ->
      returnsb (traverse2 (simulatePair sims) pre) = true ->
      returnsb (traverse (simulatePair sims type) ipre) = true ->
      simulateObservations ts sims = Throws e).
Proof.
  intros Hin1 Hin2 Hpair. split.
  - destruct (traverse_throws_In (simulatePair sims type) inner linkEnds settings
                _ Hin2 Hpair) as [e1 He1].
    destruct (traverse_throws_In
                (fun k1 inner => traverse (simulatePair sims k1) inner)
                ts type inner e1 Hin1 He1) as [e2 He2].
    exists e2. now apply simulateObservations_throws.
  - intros pre post ipre ipost -> Hpre Hipre.
    apply simulateObservations_throws. unfold traverse2.
    apply traverse_throws_at; [exact Hpre|]. cbv beta.
    apply traverse_throws_at; [exact Hipre | exact Hpair].
Qed.

Lemma simulateWithSize_throws (size : nat) (simulator : ObservationSimulator)
    (settings : SettingsPointer) (linkEnds : LinkEnds) (e : Exception) :
  simulateWithSize size simulator settings linkEnds = Throws e ->
  (e = DynamicCastError (Z.of_nat size) /\ simulatorWidth simulator <> Z.of_nat size)
  \/ (e = NullModelError /\ simulatorWidth simulator = Z.of_nat size).
Proof.
  unfold simulateWithSize, dynamic_pointer_cast.
  destruct (Z.eqb (simulatorWidth simulator) (Z.of_nat size)) eqn:E.
  - apply Z.eqb_eq in E.
    unfold simulateSingleObservationSetFromSimulator, getObservationModel.
    destruct (observationModels_ simulator linkEnds) as [model|]; cbn [bind].
    + destruct settings as [[r|r times]|]; discriminate.
    + intro H. injection H as <-. now right.
  - apply Z.eqb_neq in E. intro H. injection H as <-. now left.
Qed.

(** The three supported sizes, and what [simulatePair] is for each. *)
Lemma simulatePair_cases (sims : SimulatorMap) (type : ObservableType)
    (linkEnds : LinkEnds) (settings : SettingsPointer)
    (simulator : ObservationSimulator) :
  map_at sims type = Some simulator ->
  (exists size : nat,
      (size = 1 \/ size = 2 \/ size = 3) /\
      getObservationSize simulator linkEnds = Z.of_nat size /\
      simulatePair sims type linkEnds settings
      = simulateWithSize size simulator settings linkEnds)
  \/ (getObservationSize simulator linkEnds <> 1%Z /\
      getObservationSize simulator linkEnds <> 2%Z /\
      getObservationSize simulator linkEnds <> 3%Z /\
      simulatePair sims type linkEnds settings
      = Throws (UnsupportedDimensionError (getObservationSize simulator linkEnds))).
Proof.
  intro Hsim. unfold simulatePair. rewrite Hsim. cbv zeta.
  destruct (Z.eqb (getObservationSize simulator linkEnds) 1) eqn:E1.
  { apply Z.eqb_eq in E1. left. exists 1. auto. }
  destruct (Z.eqb (getObservationSize simulator linkEnds) 2) eqn:E2.
  { apply Z.eqb_eq in E2. left. exists 2. auto. }
  destruct (Z.eqb (getObservationSize simulator linkEnds) 3) eqn:E3.
  { apply Z.eqb_eq in E3. left. exists 3. auto. }
  apply Z.eqb_neq in E1, E2, E3. right. auto.
Qed.

(** X1: a pair throws [MissingSimulatorError] exactly when the simulator map
    has no entry for its observable; such a pair in the time settings makes
    the whole call throw, and throw that exception when the pairs before it
    return. *)
Theorem simulateObservations_missing_simulator (sims : SimulatorMap)
    (type : ObservableType) (linkEnds : LinkEnds) (settings : SettingsPointer) :
  (simulatePair sims type linkEnds settings = Throws MissingSimulatorError
   <-> map_at sims type = None) /\
  (forall ts inner,
      In (type, inner) ts ->
      In (linkEnds, settings) inner ->
      map_at sims type = None ->
      (exists e, simulateObservations ts sims = Throws e) /\
      (forall pre post ipre ipost,
          ts = pre ++ (type, ipre ++ (linkEnds, settings) :: ipost) :: post ->
          returnsb (traverse2 (simulatePair sims) pre) = true ->
          returnsb (traverse (simulatePair sims type) ipre) = true ->
          simulateObservations ts sims = Throws MissingSimulatorError)).
Proof.
  assert (Hmissing : map_at sims type = None ->
                     simulatePair sims type linkEnds settings
                     = Throws MissingSimulatorError).
  { intro H. unfold simulatePair. now rewrite H. }
  split.
  - split; [|exact Hmissing].
    destruct (map_at sims type) as [simulator|] eqn:Hsim; [|reflexivity].
    intro H. exfalso.
    destruct (simulatePair_cases sims type linkEnds settings simulator Hsim)
      as [(size & _ & _ & Heq)|(_ & _ & _ & Heq)]; rewrite Heq in H.
    + apply simulateWithSize_throws in H as [[H _]|[H _]]; discriminate.
    + discriminate.
  - intros ts inner Hin1 Hin2 Hnone.
    exact (simulateObservations_pair_throws ts sims type inner linkEnds settings
             _ Hin1 Hin2 (Hmissing Hnone)).
Qed.

Lemma simulateObservations_missing_simulator_witness :
  simulateObservations [(0, [(0, tabulated [1%float])]); (3, [(1, None)])]
    [(0, doublingSimulator)]
  = Throws MissingSimulatorError.
Proof.
  refine (proj2 (proj2 (simulateObservations_missing_simulator
                          [(0, doublingSimulator)] 3 1 None)
                   [(0, [(0, tabulated [1%float])]); (3, [(1, None)])]
                   [(1, None)] _ _ eq_refl)
            [(0, [(0, tabulated [1%float])])] [] [] [] eq_refl eq_refl eq_refl).
  - right. now left.
  - now left.
Defined.

(** X2: a pair throws the size-[n] cast error exactly when the simulator of
    its observable reports the supported size [n] for the link ends but is
    not a simulator of that width. *)
Theorem simulatePair_cast_error (sims : SimulatorMap) (type : ObservableType)
    (linkEnds : LinkEnds) (settings : SettingsPointer) (n : Z) :
  simulatePair sims type linkEnds settings = Throws (DynamicCastError n)
  <->
  exists simulator,
    map_at sims type = Some simulator /\
    getObservationSize simulator linkEnds = n /\
    (n = 1 \/ n = 2 \/ n = 3)%Z /\
    simulatorWidth simulator <> n.
Proof.
  split.
  - intro H. destruct (map_at sims type) as [simulator|] eqn:Hsim.
    + exists simulator. split; [reflexivity|].
      destruct (simulatePair_cases sims type linkEnds settings simulator Hsim)
        as [(size & Hsize & Hrep & Heq)|(_ & _ & _ & Heq)]; rewrite Heq in H;
        [|discriminate].
      apply simulateWithSize_throws in H as [[H Hw]|[H _]]; [|discriminate].
      injection H as ->. split; [exact Hrep|]. split; [lia | exact Hw].
    + unfold simulatePair in H. rewrite Hsim in H. discriminate.
  - intros (simulator & Hsim & Hrep & Hn & Hw).
    destruct (simulatePair_cases sims type linkEnds settings simulator Hsim)
      as [(size & Hsize & Hrep' & Heq)|(H1 & H2 & H3 & _)]; [|lia].
    rewrite Heq. assert (Hns : n = Z.of_nat size) by congruence.
    rewrite Hns in Hw |- *.
    unfold simulateWithSize, dynamic_pointer_cast.
    apply Z.eqb_neq in Hw. now rewrite Hw.
Qed.

(** X6: for settings that are not tabulated, a pair that returns returns
    the empty set, and it can return only if the simulator of its observable
    exists, reports a supported size for the link ends and has that width:
    the simulator is looked up, asked for its size and cast although no
    observation is simulated. *)
Theorem simulatePair_unrecognised_settings (sims : SimulatorMap)
    (type : ObservableType) (linkEnds : LinkEnds) (settings : SettingsPointer)
    (set : ObservationSet) :
  isTabulated settings = false ->
  simulatePair sims type linkEnds settings = Returns set ->
  set = emptyObservationSet /\
  exists simulator,
    map_at sims type = Some simulator /\
    getObservationSize simulator linkEnds = simulatorWidth simulator /\
    (simulatorWidth simulator = 1 \/ simulatorWidth simulator = 2
     \/ simulatorWidth simulator = 3)%Z.
Proof.
  intros Htab H. destruct (map_at sims type) as [simulator|] eqn:Hsim.
  - destruct (simulatePair_cases sims type linkEnds settings simulator Hsim)
      as [(size & Hsize & Hrep & Heq)|(_ & _ & _ & Heq)]; rewrite Heq in H;
      [|discriminate].
    unfold simulateWithSize, dynamic_pointer_cast in H.
    destruct (Z.eqb (simulatorWidth simulator) (Z.of_nat size)) eqn:E;
      [|discriminate].
    apply Z.eqb_eq in E.
    unfold simulateSingleObservationSetFromSimulator in H.
    destruct (getObservationModel simulator linkEnds) as [model|e]; cbn [bind] in H;
      [|discriminate].
    split.
    + destruct settings as [[r|r times]|]; try discriminate Htab;
        now injection H as <-.
    + exists simulator. split; [reflexivity|]. split; [congruence | lia].
  - unfold simulatePair in H. rewrite Hsim in H. discriminate.
Qed.

Lemma simulatePair_unrecognised_settings_witness :
  isTabulated (Some (BaseTimeSettings 1%Z)) = false /\
  simulatePair [(0, rampSimulator 2)] 0 4 (Some (BaseTimeSettings 1%Z))
  = Returns emptyObservationSet /\
  exists simulator,
    map_at [(0, rampSimulator 2)] 0 = Some simulator /\
    getObservationSize simulator 4 = simulatorWidth simulator /\
    (simulatorWidth simulator = 1 \/ simulatorWidth simulator = 2
     \/ simulatorWidth simulator = 3)%Z.
Proof.
  split; [reflexivity|]. split; [reflexivity|].
  exact (proj2 (simulatePair_unrecognised_settings [(0, rampSimulator 2)] 0 4
                  (Some (BaseTimeSettings 1%Z)) emptyObservationSet
                  eq_refl eq_refl)).
Defined.

(** * Further properties of the noise injection *)

Lemma In_keyPairs {V : Type} (m : stdmap (stdmap V)) (k1 k2 : nat)
    (inner : stdmap V) (v : V) :
  In (k1, inner) m -> In (k2, v) inner -> In (k1, k2) (keyPairs m).
Proof.
  intros H1 H2. unfold keyPairs. apply in_flat_map.
  exists (k1, inner). split; [exact H1|]. simpl.
  change (k1, k2) with ((fun f : nat * V => (k1, fst f)) (k2, v)).
  now apply in_map.
Qed.

Lemma traverse_ext_In {V W : Type} (g g' : nat -> V -> outcome W) (m : stdmap V) :
  (forall k v, In (k, v) m -> g k v = g' k v) -> traverse g m = traverse g' m.
Proof.
  induction m as [|[k v] rest IH]; intro H; simpl; [reflexivity|].
  rewrite (H k v) by now left.
  rewrite IH by (intros k' v' Hin; apply H; now right).
  reflexivity.
Qed.

Lemma addNoiseToSet_ext (getObservableSize : ObservableType -> Z)
    (nf nf' : stdmap (stdmap NoiseFunction)) (type : ObservableType)
    (linkEnds : LinkEnds) (set : ObservationSet) :
  map_at2 nf type linkEnds = map_at2 nf' type linkEnds ->
  addNoiseToSet getObservableSize nf type linkEnds set
  = addNoiseToSet getObservableSize nf' type linkEnds set.
Proof.
  intro H. unfold addNoiseToSet. now rewrite H.
Qed.

(** X7: on well-formed time settings, the noisy map is well formed and every
    noisy set has as many values as the noise-free set under the same keys,
    with the same times and reference link end. *)
Theorem noise_preserves_value_count (getObservableSize : ObservableType -> Z)
    (ts : TimeSettingsMap) (sims : SimulatorMap)
    (nf : stdmap (stdmap NoiseFunction)) (noisy : ObservationsMap) :
  wellFormed2 ts = true ->
  simulateObservationsWithNoise getObservableSize ts sims nf = Returns noisy ->
  exists noiseFree,
    simulateObservations ts sims = Returns noiseFree /\
    wellFormed2 noisy = true /\
    forall type linkEnds v' timesAndLinkEnd,
      map_at2 noisy type linkEnds = Some (v', timesAndLinkEnd) ->
      exists v,
        map_at2 noiseFree type linkEnds = Some (v, timesAndLinkEnd) /\
        length v' = length v.
Proof.
  intros Hwf H.
  destruct (simulateObservationsWithNoise_returns getObservableSize ts sims nf
              noisy Hwf H) as (noiseFree & Hfree & Hout & Htr).
  exists noiseFree. split; [exact Hfree|]. split.
  - now rewrite (traverse2_wellFormed2 _ _ _ Htr).
  - intros type linkEnds v' tl Hnoisy.
    pose proof (traverse2_at2 _ noiseFree noisy type linkEnds Htr) as Hat.
    destruct (map_at2 noiseFree type linkEnds) as [[v tl0]|];
      [|rewrite Hat in Hnoisy; discriminate].
    destruct Hat as (set & Hset & Hat). rewrite Hat in Hnoisy.
    injection Hnoisy as ->.
    apply addNoiseToSet_returns in Hset
      as (_ & _ & f & ws & _ & _ & Hall & Hbound & Heq).
    simpl in *. injection Heq as -> ->.
    exists v. split; [reflexivity|].
    now apply addBlocks_length.
Qed.

Lemma noise_preserves_value_count_witness :
  exists noiseFree,
    simulateObservations [(0, [(0, tabulated [10%float])])] [(0, rampSimulator 3)]
    = Returns noiseFree /\
    wellFormed2 [(0, [(0, ([10.5; 11.5; 12]%float, ([10%float], 1%Z)))])] = true /\
    forall type linkEnds v' timesAndLinkEnd,
      map_at2 [(0, [(0, ([10.5; 11.5; 12]%float, ([10%float], 1%Z)))])] type linkEnds
      = Some (v', timesAndLinkEnd) ->
      exists v,
        map_at2 noiseFree type linkEnds = Some (v, timesAndLinkEnd) /\
        length v' = length v.
Proof.
  apply (noise_preserves_value_count (fun _ => 2%Z)
           [(0, [(0, tabulated [10%float])])] [(0, rampSimulator 3)]
           [(0, [(0, constantNoise [0.5; 0.5]%float)])]);
    [reflexivity | vm_compute; reflexivity].
Defined.

(** X8: on well-formed time settings, the noisy simulation reads the noise
    map only at the pairs of the time settings: two noise maps that agree
    there give the same result, return or exception. *)
Theorem noise_lookups_decide (getObservableSize : ObservableType -> Z)
    (ts : TimeSettingsMap) (sims : SimulatorMap)
    (nf nf' : stdmap (stdmap NoiseFunction)) :
  wellFormed2 ts = true ->
  (forall type linkEnds,
      In (type, linkEnds) (keyPairs ts) ->
      map_at2 nf type linkEnds = map_at2 nf' type linkEnds) ->
  simulateObservationsWithNoise getObservableSize ts sims nf
  = simulateObservationsWithNoise getObservableSize ts sims nf'.
Proof.
  intros Hwf Hagree. unfold simulateObservationsWithNoise.
  destruct (simulateObservations ts sims) as [noiseFree|e] eqn:Hfree;
    [|reflexivity].
  cbn [bind].
  destruct (simulateObservations_shape ts sims noiseFree Hwf Hfree) as [Hout Hkeys].
  rewrite !addNoise_traverse by exact Hout.
  unfold traverse2. apply traverse_ext_In. intros type inner Hin1.
  apply traverse_ext_In. intros linkEnds set Hin2.
  apply addNoiseToSet_ext. apply Hagree. rewrite <- Hkeys.
  exact (In_keyPairs noiseFree type linkEnds inner set Hin1 Hin2).
Qed.

Lemma noise_lookups_decide_witness :
  simulateObservationsWithNoise scenarioCatalog scenarioSettings scenarioSimulators
    scenarioNoise
  = simulateObservationsWithNoise scenarioCatalog scenarioSettings scenarioSimulators
      [(0, [(0, constantNoise [oneTenth]); (1, EmptyNoiseFunction)]);
       (5, [(0, constantNoise [])])].
Proof.
  apply noise_lookups_decide; [reflexivity|].
  intros type linkEnds [Heq|[]]. injection Heq as <- <-. reflexivity.
Defined.

(** X9: a set throws [MissingNoiseFunctionError] exactly when the size of
    its observable is not zero, the check of the sample count passes and the
    noise map has no function for its keys; the exception is that of the whole
    call when the sets before it pass. *)
Theorem missing_noise_function (getObservableSize : ObservableType -> Z)
    (nf : stdmap (stdmap NoiseFunction)) (type : ObservableType)
    (linkEnds : LinkEnds) (set : ObservationSet) :
  (addNoiseToSet getObservableSize nf type linkEnds set
   = Throws MissingNoiseFunctionError
   <->
   getObservableSize type <> 0%Z /\
   Z.of_nat (length (fst (snd set)))
   = Z.quot (rows (fst set)) (getObservableSize type) /\
   map_at2 nf type linkEnds = None) /\
  (forall ts sims pre post ipre ipost,
      wellFormed2 ts = true ->
      simulateObservations ts sims
      = Returns (pre ++ (type, ipre ++ (linkEnds, set) :: ipost) :: post) ->
      returnsb (traverse2 (addNoiseToSet getObservableSize nf) pre) = true ->
      returnsb (traverse (addNoiseToSet getObservableSize nf type) ipre) = true ->
      addNoiseToSet getObservableSize nf type linkEnds set
      = Throws MissingNoiseFunctionError ->
      simulateObservationsWithNoise getObservableSize ts sims nf
      = Throws MissingNoiseFunctionError).
Proof.
  split.
  - unfold addNoiseToSet. cbv zeta.
    destruct (Z.eqb (getObservableSize type) 0) eqn:Ed.
    { apply Z.eqb_eq in Ed. split; [discriminate | intros [H _]; contradiction]. }
    apply Z.eqb_neq in Ed.
    destruct (Z.eqb _ (Z.quot _ _)) eqn:Ec; cbn [negb].
    2: { apply Z.eqb_neq in Ec. split; [discriminate|].
         intros (_ & H & _). contradiction. }
    apply Z.eqb_eq in Ec.
    destruct (map_at2 nf type linkEnds) as [f|].
    + split; [|intros (_ & _ & H); discriminate].
      destruct (addNoiseLoop _ f _ 0 _) as [x|e] eqn:L; cbn [bind]; [discriminate|].
      intro H. injection H as ->.
      apply addNoiseLoop_throws in L as [L|[L|L]]; discriminate.
    + split; [intros _; auto | reflexivity].
  - intros ts sims pre post ipre ipost.
    apply simulateObservationsWithNoise_first_failure.
Qed.

Lemma missing_noise_function_witness :
  simulateObservationsWithNoise scenarioCatalog scenarioSettings scenarioSimulators
    [(0, [(1, constantNoise [oneTenth])])]
  = Throws MissingNoiseFunctionError.
Proof.
  refine (proj2 (missing_noise_function scenarioCatalog
                   [(0, [(1, constantNoise [oneTenth])])] 0 0
                   ([0; 2; 4]%float, ([0; 1; 2]%float, 1%Z)))
            scenarioSettings scenarioSimulators [] [] [] []
            eq_refl eq_refl eq_refl eq_refl _).
  apply (proj1 (missing_noise_function scenarioCatalog
                  [(0, [(1, constantNoise [oneTenth])])] 0 0
                  ([0; 2; 4]%float, ([0; 1; 2]%float, 1%Z)))).
  split; [discriminate|]. split; reflexivity.
Defined.

(** X13: a set without times is returned as it is, and the noise function is
    never called for it (an empty function object will do), exactly when the
    size of the observable is not zero, the truncated quotient of the number
    of values by that size is zero, and the noise map has an entry for the
    keys. *)
Theorem addNoiseToSet_no_samples (getObservableSize : ObservableType -> Z)
    (nf : stdmap (stdmap NoiseFunction)) (type : ObservableType)
    (linkEnds : LinkEnds) (v : Vector) (r : LinkEndType) (set : ObservationSet) :
  addNoiseToSet getObservableSize nf type linkEnds (v, ([], r)) = Returns set
  <->
  set = (v, ([], r)) /\
  getObservableSize type <> 0%Z /\
  Z.quot (rows v) (getObservableSize type) = 0%Z /\
  exists f, map_at2 nf type linkEnds = Some f.
Proof.
  unfold addNoiseToSet. cbv zeta. cbn [fst snd length Z.of_nat].
  destruct (Z.eqb (getObservableSize type) 0) eqn:Ed.
  { apply Z.eqb_eq in Ed. split; [discriminate|]. intros (_ & H & _). contradiction. }
  apply Z.eqb_neq in Ed.
  destruct (Z.eqb 0 (Z.quot _ _)) eqn:Ec; cbn [negb].
  2: { apply Z.eqb_neq in Ec. split; [discriminate|].
       intros (_ & _ & H & _). symmetry in H. contradiction. }
  apply Z.eqb_eq in Ec.
  destruct (map_at2 nf type linkEnds) as [f|].
  - cbn [addNoiseLoop bind]. split.
    + intro H. injection H as <-. repeat split; auto. now exists f.
    + intros (-> & _). reflexivity.
  - split; [discriminate|]. intros (_ & _ & _ & f & H). discriminate.
Qed.

(** X14: a set throws [InconsistentSampleCountError] exactly when the size
    of its observable is not zero and the number of times differs from the
    truncated quotient of the number of values by that size; it never does
    when the number of values is the number of times multiplied by the size. *)
Theorem sample_count_check (getObservableSize : ObservableType -> Z)
    (nf : stdmap (stdmap NoiseFunction)) (type : ObservableType)
    (linkEnds : LinkEnds) (v : Vector) (times : list TimeType) (r : LinkEndType) :
  (addNoiseToSet getObservableSize nf type linkEnds (v, (times, r))
   = Throws InconsistentSampleCountError
   <->
   getObservableSize type <> 0%Z /\
   Z.of_nat (length times) <> Z.quot (rows v) (getObservableSize type)) /\
  ((Z.of_nat (length times) * getObservableSize type = rows v)%Z ->
   addNoiseToSet getObservableSize nf type linkEnds (v, (times, r))
   <> Throws InconsistentSampleCountError).
Proof.
  split.
  - apply addNoiseToSet_sample_count.
  - intros Heq H. apply addNoiseToSet_sample_count in H as [Hd Hne].
    apply Hne. rewrite <- Heq. now rewrite Z.quot_mul.
Qed.

Lemma sample_count_check_witness :
  addNoiseToSet (fun _ => 2%Z) [] 0 0
    ([1; 2; 3; 4]%float, ([0; 1]%float, 1%Z))
  <> Throws InconsistentSampleCountError.
Proof.
  apply (proj2 (sample_count_check (fun _ => 2%Z) [] 0 0
                  [1; 2; 3; 4]%float [0; 1]%float 1%Z)).
  reflexivity.
Defined.

(** * Further properties of the noise per observable *)

Lemma spread_noise_empty (nf : stdmap NoiseFunction) (type : ObservableType)
    (inner : stdmap SettingsPointer) (ts : TimeSettingsMap) :
  forall acc : stdmap (stdmap NoiseFunction),
    In (type, inner) ts ->
    map_at nf type = Some EmptyNoiseFunction ->
    forEach ts
      (fun type inner fullNoiseFunctions =>
         match map_at nf type with
         | None => Throws MissingObservableNoiseError
         | Some EmptyNoiseFunction => Throws MissingObservableNoiseError
         | Some f =>
             Returns
               (forEachPure inner
                  (fun linkEnds _ fullNoiseFunctions =>
                     assign2 fullNoiseFunctions type linkEnds f)
                  fullNoiseFunctions)
         end)
      acc
    = Throws MissingObservableNoiseError.
Proof.
  induction ts as [|[k v] rest IH]; intros acc Hin Hempty; [destruct Hin|].
  cbn [forEach].
  destruct (map_at nf k) as [[|g|s size]|] eqn:E; cbn [bind]; try reflexivity.
  - apply IH; [|exact Hempty]. destruct Hin as [Heq|Hin]; [|exact Hin].
    injection Heq as -> _. congruence.
  - apply IH; [|exact Hempty]. destruct Hin as [Heq|Hin]; [|exact Hin].
    injection Heq as -> _. congruence.
Qed.

(** X10: when the noise map holds an empty function object for an
    observable of the time settings, the overload that takes one vector
    noise function per observable fails in its first loop with
    [MissingObservableNoiseError], which stands for the "missing observable"
    error of that observable and for the out_of_range of an earlier
    observable that has no entry at all; nothing is simulated, whatever the
    simulators. *)
Theorem empty_observable_noise (getObservableSize : ObservableType -> Z)
    (ts : TimeSettingsMap) (sims : SimulatorMap) (nf : stdmap NoiseFunction)
    (type : ObservableType) (inner : stdmap SettingsPointer) :
  In (type, inner) ts ->
  map_at nf type = Some EmptyNoiseFunction ->
  simulateObservationsWithNoisePerObservable getObservableSize ts sims nf
  = Throws MissingObservableNoiseError.
Proof.
  intros Hin Hempty. unfold simulateObservationsWithNoisePerObservable.
  now rewrite (spread_noise_empty nf type inner ts [] Hin Hempty).
Qed.

Lemma empty_observable_noise_witness :
  simulateObservationsWithNoisePerObservable scenarioCatalog scenarioSettings []
    [(0, EmptyNoiseFunction)]
  = Throws MissingObservableNoiseError.
Proof.
  apply (empty_observable_noise scenarioCatalog scenarioSettings []
           [(0, EmptyNoiseFunction)] 0 [(0, tabulated [0; 1; 2]%float)]).
  - now left.
  - reflexivity.
Defined.

(** The overload that takes one vector noise function per observable is the
    noisy simulation with a noise map that holds, at every pair of the time
    settings, the function of the observable, and nothing elsewhere. *)
Lemma perObservable_as_canonical (getObservableSize : ObservableType -> Z)
    (ts : TimeSettingsMap) (sims : SimulatorMap) (nf : stdmap NoiseFunction) :
  wellFormed2 ts = true ->
  (forall type inner,
      In (type, inner) ts ->
      exists f, map_at nf type = Some f /\ f <> EmptyNoiseFunction) ->
  exists full,
    simulateObservationsWithNoisePerObservable getObservableSize ts sims nf
    = simulateObservationsWithNoise getObservableSize ts sims full /\
    forall type linkEnds,
      map_at2 full type linkEnds
      = match map_at2 ts type linkEnds with
        | Some _ => map_at nf type
        | None => None
        end.
Proof.
  intros Hwf Hall.
  set (F := fun type => match map_at nf type with
                        | Some f => f
                        | None => EmptyNoiseFunction
                        end).
  set (X := mapValues
              (fun type (inner : stdmap SettingsPointer) =>
                 mapValues (fun _ _ => F type) inner)
              ts).
  exists (fill2 X []). split.
  - unfold simulateObservationsWithNoisePerObservable.
    rewrite (forEach_pure _
               (fun type (inner : stdmap SettingsPointer) full =>
                  forEachPure inner
                    (fun linkEnds _ full => assign2 full type linkEnds (F type))
                    full)).
    2: { intros type inner full Hin.
         destruct (Hall type inner Hin) as (f & Hf & Hne).
         unfold F. rewrite Hf.
         destruct f; [contradiction | reflexivity | reflexivity]. }
    cbn [bind]. f_equal. unfold fill2, X.
    rewrite <- (forEachPure_mapValues
                  (fun type (inner : stdmap SettingsPointer) =>
                     mapValues (fun _ _ => F type) inner)
                  (fun k1 xs acc =>
                     forEachPure xs (fun k2 x acc => assign2 acc k1 k2 x) acc)).
    apply forEachPure_ext. intros type inner acc.
    apply (forEachPure_mapValues
             (fun _ (_ : SettingsPointer) => F type)
             (fun k2 x acc => assign2 acc type k2 x)).
  - intros type linkEnds.
    assert (Hx : wellFormed2 X = true)
      by (unfold X; now rewrite mapValues2_wellFormed2).
    unfold wellFormed2 in Hx. apply andb_true_iff in Hx as [Hk Hin].
    rewrite (fill2_spec X [] Hk Hin). simpl.
    rewrite (map_at2_dropEmpty X type linkEnds Hk).
    unfold map_at2, X. rewrite map_at_mapValues.
    destruct (map_at ts type) as [inner|] eqn:E; simpl; [|reflexivity].
    rewrite map_at_mapValues.
    destruct (map_at inner linkEnds); simpl; [|reflexivity].
    destruct (Hall type inner (map_at_In ts type inner E)) as (f & Hf & _).
    unfold F. now rewrite Hf.
Qed.

(** X11: on well-formed time settings all of whose observables have a
    non-empty function in the noise map, the overload that takes one vector
    noise function per observable is the noisy simulation with some noise
    map that holds the function of the observable at every pair of the time
    settings and no function at any other pair. *)
Theorem perObservable_broadcast (getObservableSize : ObservableType -> Z)
    (ts : TimeSettingsMap) (sims : SimulatorMap) (nf : stdmap NoiseFunction) :
  wellFormed2 ts = true ->
  (forall type inner,
      In (type, inner) ts ->
      exists f, map_at nf type = Some f /\ f <> EmptyNoiseFunction) ->
  exists full,
    simulateObservationsWithNoisePerObservable getObservableSize ts sims nf
    = simulateObservationsWithNoise getObservableSize ts sims full /\
    forall type linkEnds,
      map_at2 full type linkEnds
      = match map_at2 ts type linkEnds with
        | Some _ => map_at nf type
        | None => None
        end.
Proof.
  apply perObservable_as_canonical.
Qed.

Lemma perObservable_broadcast_witness :
  exists full,
    simulateObservationsWithNoisePerObservable scenarioCatalog
      [(0, [(0, tabulated [0%float]); (3, tabulated [])])] scenarioSimulators
      [(0, constantNoise [oneTenth])]
    = simulateObservationsWithNoise scenarioCatalog
        [(0, [(0, tabulated [0%float]); (3, tabulated [])])] scenarioSimulators full /\
    forall type linkEnds,
      map_at2 full type linkEnds
      = match map_at2 [(0, [(0, tabulated [0%float]); (3, tabulated [])])]
                type linkEnds with
        | Some _ => map_at [(0, constantNoise [oneTenth])] type
        | None => None
        end.
Proof.
  apply (perObservable_broadcast scenarioCatalog
           [(0, [(0, tabulated [0%float]); (3, tabulated [])])] scenarioSimulators
           [(0, constantNoise [oneTenth])] eq_refl).
  intros type inner [Heq|[]]. injection Heq as <- <-.
  exists (constantNoise [oneTenth]). split; [reflexivity | discriminate].
Defined.

(** * The single scalar noise function *)

(** The blocks of a noisy set, with the function that gave the noise. *)
Lemma noisy_blocks (getObservableSize : ObservableType -> Z)
    (ts : TimeSettingsMap) (sims : SimulatorMap)
    (nf : stdmap (stdmap NoiseFunction)) (noisy : ObservationsMap) :
  wellFormed2 ts = true ->
  simulateObservationsWithNoise getObservableSize ts sims nf = Returns noisy ->
  exists noiseFree,
    simulateObservations ts sims = Returns noiseFree /\
    forall type linkEnds v' timesAndLinkEnd,
      map_at2 noisy type linkEnds = Some (v', timesAndLinkEnd) ->
      getObservableSize type <> 0%Z /\
      exists v f,
        map_at2 noiseFree type linkEnds = Some (v, timesAndLinkEnd) /\
        map_at2 nf type linkEnds = Some f /\
        forall i, i < length (fst timesAndLinkEnd) ->
          exists w,
            callNoiseFunction f (nth i (fst timesAndLinkEnd) 0%float) = Returns w /\
            segment v' (i * Z.to_nat (getObservableSize type))
              (Z.to_nat (getObservableSize type))
            = addVectors
                (segment v (i * Z.to_nat (getObservableSize type))
                   (Z.to_nat (getObservableSize type)))
                w.
Proof.
  intros Hwf H.
  destruct (simulateObservationsWithNoise_returns getObservableSize ts sims nf
              noisy Hwf H) as (noiseFree & Hfree & _ & Htr).
  exists noiseFree. split; [exact Hfree|].
  intros type linkEnds v' tl Hnoisy.
  pose proof (traverse2_at2 _ noiseFree noisy type linkEnds Htr) as Hat.
  destruct (map_at2 noiseFree type linkEnds) as [[v tl0]|];
    [|rewrite Hat in Hnoisy; discriminate].
  destruct Hat as (set & Hset & Hat). rewrite Hat in Hnoisy. injection Hnoisy as ->.
  apply addNoiseToSet_returns in Hset
    as (Hd & _ & f & ws & Hf & Hws & Hall & Hbound & Heq).
  simpl in *. injection Heq as -> ->.
  split; [exact Hd|].
  exists v, f. split; [reflexivity|]. split; [exact Hf|].
  intros i Hi.
  destruct (Forall2_nth_both _ _ _ 0%float [] Hws) as [Hlen Hnth].
  exists (nth i ws []). split; [now apply Hnth|].
  apply addBlocks_segment; [exact Hall | exact Hbound | ].
  exact (eq_ind _ (fun n => i < n) Hi _ Hlen).
Qed.

Lemma bound_noise_returns (f : ScalarNoiseFunction) (size : Z) (t : double)
    (w : Vector) :
  size <> 0%Z ->
  getIdenticallyAndIndependentlyDistributedNoise f size t = Returns w ->
  exists g, f = Some g /\ w = repeat (g t) (Z.to_nat size).
Proof.
  intro Hsize. unfold getIdenticallyAndIndependentlyDistributedNoise.
  destruct (size <? 0)%Z eqn:E; [discriminate|]. apply Z.ltb_ge in E.
  destruct (Z.to_nat size) as [|n] eqn:En; [lia|].
  destruct f as [g|]; [|discriminate].
  intro H. injection H as <-. exists g. split; [reflexivity|].
  apply (map_const_seq (g t) (S n) 0).
Qed.

(** X12: for a pure scalar noise function (its value depends on the time
    only): when the overload that takes a single scalar noise function
    returns on well-formed time settings, that function is not empty, and
    every block of every noisy set is the noise-free block plus the value of
    the function at the time of the sample, the same for all components. *)
Theorem scalar_noise_is_shared (getObservableSize : ObservableType -> Z)
    (ts : TimeSettingsMap) (sims : SimulatorMap)
    (noiseFunction : ScalarNoiseFunction) (noisy : ObservationsMap) :
  wellFormed2 ts = true ->
  simulateObservationsWithNoiseScalar getObservableSize ts sims noiseFunction
  = Returns noisy ->
  exists noiseFree,
    simulateObservations ts sims = Returns noiseFree /\
    forall type linkEnds v' timesAndLinkEnd,
      map_at2 noisy type linkEnds = Some (v', timesAndLinkEnd) ->
      exists v,
        map_at2 noiseFree type linkEnds = Some (v, timesAndLinkEnd) /\
        forall i, i < length (fst timesAndLinkEnd) ->
          exists g,
            noiseFunction = Some g /\
            segment v' (i * Z.to_nat (getObservableSize type))
              (Z.to_nat (getObservableSize type))
            = addVectors
                (segment v (i * Z.to_nat (getObservableSize type))
                   (Z.to_nat (getObservableSize type)))
                (repeat (g (nth i (fst timesAndLinkEnd) 0%float))
                   (Z.to_nat (getObservableSize type))).
Proof.
  intros Hwf H.
  assert (Hk : wellFormed ts = true).
  { unfold wellFormed2 in Hwf. now apply andb_true_iff in Hwf as [Hk _]. }
  unfold simulateObservationsWithNoiseScalar,
    simulateObservationsWithNoiseScalarPerObservable in H. cbv zeta in H.
  rewrite (forEachPure_mapValues
             (fun _ (_ : stdmap SettingsPointer) => noiseFunction)
             (fun k x acc => assign acc k x) ts []) in H.
  rewrite (fill_flat _ []) in H by (simpl; rewrite mapValues_keys; exact Hk).
  simpl in H.
  rewrite (forEachPure_mapValues (boundNoise getObservableSize)
             (fun k x acc => assign acc k x) _ []) in H.
  rewrite (fill_flat _ []) in H
    by (simpl; rewrite !mapValues_keys; exact Hk).
  simpl in H.
  set (nvf := mapValues (boundNoise getObservableSize)
                (mapValues (fun _ (_ : stdmap SettingsPointer) => noiseFunction) ts))
    in H.
  assert (Hnvf : forall type inner,
             map_at ts type = Some inner ->
             map_at nvf type
             = Some (BoundScalarNoiseFunction noiseFunction (getObservableSize type))).
  { intros type inner E. unfold nvf. rewrite !map_at_mapValues, E. reflexivity. }
  destruct (perObservable_as_canonical getObservableSize ts sims nvf Hwf)
    as (full & Hcall & Hfull).
  { intros type inner Hin.
    exists (BoundScalarNoiseFunction noiseFunction (getObservableSize type)).
    split; [|discriminate].
    apply (Hnvf type inner). now apply In_map_at. }
  rewrite Hcall in H.
  destruct (noisy_blocks getObservableSize ts sims full noisy Hwf H)
    as (noiseFree & Hfree & Hblocks).
  exists noiseFree. split; [exact Hfree|].
  intros type linkEnds v' tl Hnoisy.
  destruct (Hblocks type linkEnds v' tl Hnoisy) as (Hd & v & f & Hv & Hf & Hi).
  exists v. split; [exact Hv|].
  intros i Hlt. destruct (Hi i Hlt) as (w & Hw & Hseg).
  rewrite Hfull in Hf. unfold map_at2 in Hf.
  destruct (map_at ts type) as [inner|] eqn:E; [|discriminate].
  destruct (map_at inner linkEnds); [|discriminate].
  rewrite (Hnvf type inner E) in Hf. injection Hf as <-.
  simpl in Hw.
  destruct (bound_noise_returns noiseFunction _ _ w Hd Hw) as (g & Hg & ->).
  exists g. split; [exact Hg | exact Hseg].
Qed.

Lemma scalar_noise_is_shared_witness :
  exists noiseFree,
    simulateObservations [(0, [(0, tabulated [10%float])])] [(0, rampSimulator 3)]
    = Returns noiseFree /\
    forall type linkEnds v' timesAndLinkEnd,
      map_at2 [(0, [(0, ([10.5; 11.5; 12.5]%float, ([10%float], 1%Z)))])]
        type linkEnds
      = Some (v', timesAndLinkEnd) ->
      exists v,
        map_at2 noiseFree type linkEnds = Some (v, timesAndLinkEnd) /\
        forall i, i < length (fst timesAndLinkEnd) ->
          exists g,
            Some (fun _ : double => 0.5%float) = Some g /\
            segment v' (i * Z.to_nat 3) (Z.to_nat 3)
            = addVectors (segment v (i * Z.to_nat 3) (Z.to_nat 3))
                (repeat (g (nth i (fst timesAndLinkEnd) 0%float)) (Z.to_nat 3)).
Proof.
  apply (scalar_noise_is_shared (fun _ => 3%Z)
           [(0, [(0, tabulated [10%float])])] [(0, rampSimulator 3)]
           (Some (fun _ => 0.5%float)));
    [reflexivity | vm_compute; reflexivity].
Defined.

(** * Kinds of exceptions *)

Lemma forEach_throws_kind {V S : Type} (P : Exception -> Prop) (m : stdmap V)
    (body : nat -> V -> S -> outcome S) :
  (forall k v s e, body k v s = Throws e -> P e) ->
  forall s e, forEach m body s = Throws e -> P e.
Proof.
  intro Hbody. induction m as [|[k v] rest IH]; intros s e; cbn [forEach].
  - discriminate.
  - destruct (body k v s) as [s'|e'] eqn:B; cbn [bind].
    + apply IH.
    + intro H. injection H as <-. exact (Hbody k v s e' B).
Qed.

Lemma simulatePair_throws_kind (sims : SimulatorMap) (type : ObservableType)
    (linkEnds : LinkEnds) (settings : SettingsPointer) (e : Exception) :
  simulatePair sims type linkEnds settings = Throws e ->
  aggregateException e = true.
Proof.
  intro H. destruct (map_at sims type) as [simulator|] eqn:Hsim.
  - destruct (simulatePair_cases sims type linkEnds settings simulator Hsim)
      as [(size & _ & _ & Heq)|(_ & _ & _ & Heq)]; rewrite Heq in H.
    + apply simulateWithSize_throws in H as [[-> _]|[-> _]]; reflexivity.
    + now injection H as <-.
  - unfold simulatePair in H. rewrite Hsim in H. now injection H as <-.
Qed.

Lemma addNoiseToSet_throws_kind (getObservableSize : ObservableType -> Z)
    (nf : stdmap (stdmap NoiseFunction)) (type : ObservableType)
    (linkEnds : LinkEnds) (set : ObservationSet) (e : Exception) :
  addNoiseToSet getObservableSize nf type linkEnds set = Throws e ->
  noiseException e = true.
Proof.
  unfold addNoiseToSet. cbv zeta.
  destruct (Z.eqb (getObservableSize type) 0); [intro H; now injection H as <-|].
  destruct (negb _); [intro H; now injection H as <-|].
  destruct (map_at2 nf type linkEnds) as [f|]; [|intro H; now injection H as <-].
  destruct (addNoiseLoop _ f _ 0 _) as [x|e'] eqn:L; cbn [bind]; [discriminate|].
  intro H. injection H as <-.
  apply addNoiseLoop_throws in L as [->|[->| ->]]; reflexivity.
Qed.

Lemma simulateObservations_throws_kind (ts : TimeSettingsMap) (sims : SimulatorMap)
    (e : Exception) :
  simulateObservations ts sims = Throws e -> aggregateException e = true.
Proof.
  unfold simulateObservations.
  apply (forEach_throws_kind (fun e => aggregateException e = true)).
  intros type inner obs e'.
  apply (forEach_throws_kind (fun e => aggregateException e = true)).
  intros linkEnds settings obs' e''.
  destruct (simulatePair sims type linkEnds settings) as [set|e3] eqn:P; cbn [bind];
    [discriminate|].
  intro H. injection H as <-. exact (simulatePair_throws_kind _ _ _ _ _ P).
Qed.

Lemma addNoise_throws_kind (getObservableSize : ObservableType -> Z)
    (nf : stdmap (stdmap NoiseFunction)) (noiseFree : ObservationsMap)
    (e : Exception) :
  addNoise getObservableSize nf noiseFree = Throws e -> noiseException e = true.
Proof.
  unfold addNoise.
  apply (forEach_throws_kind (fun e => noiseException e = true)).
  intros type inner acc e'. cbv beta.
  match goal with
  | |- context [forEach inner ?b []] =>
      destruct (forEach inner b []) as [single|e2] eqn:F
  end; cbn [bind]; [discriminate|].
  intro H. injection H as <-. revert F.
  apply (forEach_throws_kind (fun e => noiseException e = true)).
  intros linkEnds set single e3.
  destruct (addNoiseToSet getObservableSize nf type linkEnds set) as [x|e4] eqn:A;
    cbn [bind]; [discriminate|].
  intro H. injection H as <-. exact (addNoiseToSet_throws_kind _ _ _ _ _ _ A).
Qed.

Lemma simulateObservationsWithNoise_throws_kind
    (getObservableSize : ObservableType -> Z) (ts : TimeSettingsMap)
    (sims : SimulatorMap) (nf : stdmap (stdmap NoiseFunction)) (e : Exception) :
  simulateObservationsWithNoise getObservableSize ts sims nf = Throws e ->
  aggregateException e || noiseException e = true.
Proof.
  unfold simulateObservationsWithNoise.
  destruct (simulateObservations ts sims) as [noiseFree|e'] eqn:S; cbn [bind].
  - intro H. rewrite (addNoise_throws_kind _ _ _ _ H). apply orb_true_r.
  - intro H. injection H as <-.
    now rewrite (simulateObservations_throws_kind _ _ _ S).
Qed.

(** X16: on well-formed time settings, the overload that takes a single
    scalar noise function never throws [MissingObservableNoiseError], be the
    function empty or not. *)
Theorem scalar_never_misses_observable (getObservableSize : ObservableType -> Z)
    (ts : TimeSettingsMap) (sims : SimulatorMap)
    (noiseFunction : ScalarNoiseFunction) :
  wellFormed2 ts = true ->
  simulateObservationsWithNoiseScalar getObservableSize ts sims noiseFunction
  <> Throws MissingObservableNoiseError.
Proof.
  intros Hwf H.
  assert (Hk : wellFormed ts = true).
  { unfold wellFormed2 in Hwf. now apply andb_true_iff in Hwf as [Hk _]. }
  unfold simulateObservationsWithNoiseScalar,
    simulateObservationsWithNoiseScalarPerObservable in H. cbv zeta in H.
  rewrite (forEachPure_mapValues
             (fun _ (_ : stdmap SettingsPointer) => noiseFunction)
             (fun k x acc => assign acc k x) ts []) in H.
  rewrite (fill_flat _ []) in H by (simpl; rewrite mapValues_keys; exact Hk).
  simpl in H.
  rewrite (forEachPure_mapValues (boundNoise getObservableSize)
             (fun k x acc => assign acc k x) _ []) in H.
  rewrite (fill_flat _ []) in H
    by (simpl; rewrite !mapValues_keys; exact Hk).
  simpl in H.
  destruct (perObservable_as_canonical getObservableSize ts sims
              (mapValues (boundNoise getObservableSize)
                 (mapValues
                    (fun _ (_ : stdmap SettingsPointer) => noiseFunction) ts))
              Hwf)
    as (full & Hcall & _); [|rewrite Hcall in H].
  - intros type inner Hin.
    exists (BoundScalarNoiseFunction noiseFunction (getObservableSize type)).
    split; [|discriminate].
    rewrite !map_at_mapValues, (In_map_at ts type inner Hk Hin). reflexivity.
  - apply simulateObservationsWithNoise_throws_kind in H. discriminate H.
Qed.

Lemma scalar_never_misses_observable_witness :
  simulateObservationsWithNoiseScalar scenarioCatalog scenarioSettings
    scenarioSimulators None
  <> Throws MissingObservableNoiseError.
Proof.
  apply (scalar_never_misses_observable scenarioCatalog scenarioSettings
           scenarioSimulators None eq_refl).
Defined.

(** * Tables of times *)

(** X17: when the overload of [simulateObservations] that takes tables of
    times returns on a well-formed table, the observations under a pair of
    keys are what the pair gives with the tabulated settings of the table
    entry, and there are no observations under keys without a table entry. *)
Theorem simulateObservationsFromTimes_at2 (table : TimeTable) (sims : SimulatorMap)
    (out : ObservationsMap) :
  wellFormed2 table = true ->
  simulateObservationsFromTimes table sims = Returns out ->
  forall type linkEnds,
    match map_at2 table type linkEnds with
    | Some entry =>
        exists set,
          simulatePair sims type linkEnds
            (Some (TabulatedObservationSimulationTimeSettings (snd entry) (fst entry)))
          = Returns set /\
          map_at2 out type linkEnds = Some set
    | None => map_at2 out type linkEnds = None
    end.
Proof.
  intros Hwf H type linkEnds.
  unfold simulateObservationsFromTimes in H.
  rewrite (createObservationSimulationTimeSettingsMap_wellFormed table Hwf) in H.
  assert (Ht : wellFormed2 (tabulatedSettings table) = true)
    by now rewrite tabulatedSettings_wellFormed2.
  rewrite (simulateObservations_wellFormed _ sims (dropEmpty_wellFormed2 _ Ht)) in H.
  rewrite traverse2_dropEmpty in H.
  destruct (traverse2 (simulatePair sims) (tabulatedSettings table)) as [xss|e] eqn:T;
    [|discriminate].
  cbn [bind] in H. injection H as <-.
  assert (Hx : wellFormed xss = true).
  { pose proof (traverse2_wellFormed2 _ _ _ T) as Hx. rewrite Ht in Hx.
    unfold wellFormed2 in Hx. now apply andb_true_iff in Hx as [Hx _]. }
  rewrite (map_at2_dropEmpty xss type linkEnds Hx).
  pose proof (traverse2_at2 _ _ xss type linkEnds T) as Hat.
  assert (Hlookup : map_at2 (tabulatedSettings table) type linkEnds
                    = option_map
                        (fun entry =>
                           Some (TabulatedObservationSimulationTimeSettings
                                   (snd entry) (fst entry)))
                        (map_at2 table type linkEnds)).
  { unfold map_at2, tabulatedSettings. rewrite map_at_mapValues.
    destruct (map_at table type) as [inner|]; simpl; [|reflexivity].
    apply map_at_mapValues. }
  rewrite Hlookup in Hat.
  destruct (map_at2 table type linkEnds); exact Hat.
Qed.

Lemma simulateObservationsFromTimes_at2_witness :
  exists set,
    simulatePair [(2, rampSimulator 2)] 2 0
      (Some (TabulatedObservationSimulationTimeSettings 1%Z [1%float; 2%float]))
    = Returns set /\
    map_at2
      [(2, [(0, ([1; 2; 2; 3]%float, ([1; 2]%float, 1%Z)));
            (5, ([], ([], 2%Z)))])] 2 0
    = Some set.
Proof.
  exact (simulateObservationsFromTimes_at2
           [(2, [(0, ([1%float; 2%float], 1%Z)); (5, ([], 2%Z))]); (4, [])]
           [(2, rampSimulator 2)]
           [(2, [(0, ([1; 2; 2; 3]%float, ([1; 2]%float, 1%Z)));
                 (5, ([], ([], 2%Z)))])]
           eq_refl eq_refl 2 0).
Defined.
